(** * Network visualizer: device registry, auto-layout, filtering and links

    A shallow embedding of the device and connection managers of the Babylon.js
    network visualizer:

    - [babylon_app/network-visualizer/js/DeviceManager.js]: class [DeviceManager]
      ([loadDevices], [preloadModels], [createDevice], [detectEndpointType],
      [autoPositionDevice], [filterByCategories], [toggleLabels], ...);
    - the demonstration [DeviceManager] ([loadDevice], box meshes, [category]
      field), embedded in module [Demo];
    - class [ConnectionManager] ([createConnection], [toggleVisibility],
      [getConnectionCount]);
    - of class [NetworkVisualizer], the functions that drive the managers
      ([createConnections], [createSampleTopology], [loadModels],
      [updateDeviceVisibility]).

    Conventions.
    - JavaScript numbers are modelled as exact rationals ([Q]).  The arithmetic the
      code performs on them (halving a small integer, multiplying by 4, averaging)
      is exact on doubles for the magnitudes a scene uses; [0.1] stands for the
      double the literal denotes.
    - A JavaScript [Map] is an association list in insertion order whose keys are
      kept distinct by [map_set] (an existing key keeps its place).
    - Babylon nodes (meshes, label planes) live in a store, the scene, addressed
      by index; the registry and the label table hold indices, so that a label's
      [parent] really is the mesh the registry knows. *)

From Stdlib Require Import ZArith QArith Lia Lqa Bool Ascii String.
From stdpp Require Import base list strings gmap.

Open Scope string_scope.

(** ** JavaScript strings *)

(** [String.prototype.toLowerCase], on the ASCII range. *)
Definition lower_char (c : ascii) : ascii :=
  let n := nat_of_ascii c in
  if (65 <=? n)%nat && (n <=? 90)%nat then ascii_of_nat (n + 32) else c.

Fixpoint toLowerCase (s : string) : string :=
  match s with
  | EmptyString => EmptyString
  | String c s' => String (lower_char c) (toLowerCase s')
  end.

(** [s.startsWith(p)] *)
Definition startsWith (s p : string) : bool := String.prefix p s.

(** [s.includes(sub)]: [sub] occurs at some offset of [s]. *)
Fixpoint str_includes (s sub : string) : bool :=
  startsWith s sub ||
  match s with
  | EmptyString => false
  | String _ s' => str_includes s' sub
  end.

(** [array.includes(x)] on an array of strings; [x] may be [undefined]
    (a missing property), which no string equals. *)
Definition arr_includes (xs : list string) (x : option string) : bool :=
  match x with
  | Some v => existsb (String.eqb v) xs
  | None => false
  end.

(** ** Numbers and vectors *)

Record Vector3 := mkVector3 { vx : Q; vy : Q; vz : Q }.

(** Two vectors denote the same point. *)
Definition same_point (a b : Vector3) : Prop :=
  (vx a == vx b)%Q /\ (vy a == vy b)%Q /\ (vz a == vz b)%Q.

Definition same_pointb (a b : Vector3) : bool :=
  Qeq_bool (vx a) (vx b) && Qeq_bool (vy a) (vy b) && Qeq_bool (vz a) (vz b).

(** A numeric property that may be missing from an object. *)
Definition coord := option Q.

(** [v || d] for a number-or-missing [v]: a missing or zero [v] is falsy. *)
Definition or_default (v : coord) (d : Q) : Q :=
  match v with
  | Some q => if Qeq_bool q 0 then d else q
  | None => d
  end.

(** [v] is falsy: missing, or the number zero. *)
Definition falsy (v : coord) : Prop :=
  v = None \/ exists q, v = Some q /\ (q == 0)%Q.

(** ** Descriptors *)

(** The [position] object of a descriptor. *)
Record PositionInfo := mkPositionInfo { px : coord; py : coord; pz : coord }.

(** A device descriptor ([deviceInfo] / [modelInfo]).  [type] is read by
    [DeviceManager.js], [category] by the demonstration manager. *)
Record DeviceInfo := mkDeviceInfo {
  name : string;
  type : option string;
  category : option string;
  mac : option string;
  position : option PositionInfo
}.

(** [s || ''] *)
Definition or_empty (s : option string) : string :=
  match s with
  | Some v => v
  | None => ""
  end.

(** ** detectEndpointType *)

Definition macVendors : list (string * list string) :=
  [ ("apple",   ["28:cf:e9"; "a4:c3:61"; "40:a6:d9"; "98:01:a7"]);
    ("samsung", ["e8:50:8b"; "ac:c1:ee"; "38:b1:db"]);
    ("dell",    ["10:9a:dd"; "18:03:73"; "84:2b:2b"]);
    ("hp",      ["28:cf:e9"; "3c:d9:2b"; "f0:4d:a5"]);
    ("lenovo",  ["70:72:3c"; "00:1a:6b"; "f4:ce:46"]) ].

(** The inner loop: the first prefix of [prefixes] that starts [mac] returns. *)
Fixpoint scan_prefixes (mac vendor : string) (prefixes : list string) : option string :=
  match prefixes with
  | [] => None
  | prefix :: rest =>
      if startsWith mac prefix
      then Some (if String.eqb vendor "apple" then "laptop" else "desktop")
      else scan_prefixes mac vendor rest
  end.

(** The outer loop over [Object.entries(macVendors)]. *)
Fixpoint scan_vendors (mac : string) (vendors : list (string * list string)) : option string :=
  match vendors with
  | [] => None
  | (vendor, prefixes) :: rest =>
      match scan_prefixes mac vendor prefixes with
      | Some r => Some r
      | None => scan_vendors mac rest
      end
  end.

Definition detectEndpointType (deviceInfo : DeviceInfo) : string :=
  let name := toLowerCase (name deviceInfo) in
  let mac := toLowerCase (or_empty (mac deviceInfo)) in
  match scan_vendors mac macVendors with
  | Some r => r
  | None =>
      if str_includes name "laptop" || str_includes name "notebook" || str_includes name "macbook"
      then "laptop"
      else if str_includes name "desktop" || str_includes name "pc" || str_includes name "tower"
      then "desktop"
      else if str_includes name "phone" || str_includes name "mobile"
              || str_includes name "iphone" || str_includes name "android"
      then "mobile"
      else "desktop"
  end.


(** The lower-cased name contains one of the keywords. *)
Definition name_has (n : string) (keywords : list string) : bool :=
  existsb (str_includes (toLowerCase n)) keywords.

(** ** autoPositionDevice *)

(** The position [autoPositionDevice(mesh, index)] writes into [mesh.position].
    [Z.sqrt_up] is [Math.ceil(Math.sqrt(_))] on positive integers
    (lemma [gridSize_spec]). *)
Definition autoPositionDevice (index : Z) : Vector3 :=
  let gridSize := Z.sqrt_up (index + 1) in
  let spacing := 4%Z in
  let row := (index / gridSize)%Z in
  let col := (index mod gridSize)%Z in
  {| vx := (inject_Z col - inject_Z gridSize / 2) * inject_Z spacing;
     vz := (inject_Z row - inject_Z gridSize / 2) * inject_Z spacing;
     vy := 1 |}%Q.

(** The positions given to a batch of [n] devices without explicit position,
    inserted into an empty registry: indices [0 .. n-1]. *)
Definition auto_layout (n : nat) : list Vector3 :=
  map (fun i => autoPositionDevice (Z.of_nat i)) (seq 0 n).

(** No two entries of a list of positions denote the same point. *)
Fixpoint pairwise_distinct (ps : list Vector3) : bool :=
  match ps with
  | [] => true
  | p :: rest => negb (existsb (same_pointb p) rest) && pairwise_distinct rest
  end.

(** ** Explicit positions *)

(** [new BABYLON.Vector3(position.x || 0, position.y || 1, position.z || 0)] *)
Definition explicitPosition (p : PositionInfo) : Vector3 :=
  {| vx := or_default (px p) 0; vy := or_default (py p) 1; vz := or_default (pz p) 0 |}.

(** ** JavaScript maps *)

(** [Map.prototype.get] *)
Fixpoint map_get {V} (k : string) (m : list (string * V)) : option V :=
  match m with
  | [] => None
  | (k', v) :: m' => if String.eqb k' k then Some v else map_get k m'
  end.

(** [Map.prototype.set]: an existing key keeps its place and takes the new
    value, a new key goes to the end. *)
Fixpoint map_set {V} (k : string) (v : V) (m : list (string * V)) : list (string * V) :=
  match m with
  | [] => [(k, v)]
  | (k', v') :: m' =>
      if String.eqb k' k then (k, v) :: m' else (k', v') :: map_set k v m'
  end.

(** The keys, in iteration order. *)
Definition keys {V} (m : list (string * V)) : list string := map fst m.

(** ** Babylon nodes and the scene *)

(** The values the managers pass to [setEnabled]: a boolean, or the function
    object that the property read [node.isEnabled] yields ([isEnabled] is a
    method of Babylon's [Node]; the managers read it without calling it). *)
Inductive JsVal :=
  | JBool (b : bool)
  | JFunction.

Definition truthy (v : JsVal) : bool :=
  match v with
  | JBool b => b
  | JFunction => true
  end.

(** [a && v] for a boolean [a] *)
Definition js_and (a : bool) (v : JsVal) : JsVal :=
  if a then v else JBool false.

(** What a node was created as, and for which descriptor name. *)
Inductive NodeKind :=
  | Visual (owner : string)
  | LabelPlane (text : string).

Record Node := mkNode {
  node_kind : NodeKind;
  node_name : string;
  node_parent : option nat;
  node_enabled : JsVal;
  node_position : Vector3
}.

(** [node.setEnabled(v)] for the node at index [i] of the scene: Babylon
    stores [v] in the node's own flag. *)
Definition setEnabled (i : nat) (v : JsVal) (sc : list Node) : list Node :=
  alter (fun n => mkNode (node_kind n) (node_name n) (node_parent n) v (node_position n)) i sc.

(** Babylon's [node.isEnabled()]: the node's own flag and those of its
    ancestors.  This is the effective visibility of the specification,
    [label.enabled && device.visual.enabled] for a label plane. *)
Fixpoint enabled_upto (fuel : nat) (sc : list Node) (i : nat) : bool :=
  match sc !! i with
  | None => false
  | Some n =>
      truthy (node_enabled n) &&
      match node_parent n, fuel with
      | Some p, S fuel' => enabled_upto fuel' sc p
      | _, _ => true
      end
  end.

Definition isEnabled (sc : list Node) (i : nat) : bool :=
  enabled_upto (length sc) sc i.

(** The node's own flag, as last stored by [setEnabled]. *)
Definition own_enabled (sc : list Node) (i : nat) : bool :=
  match sc !! i with
  | Some n => truthy (node_enabled n)
  | None => false
  end.


(** ** The device manager *)

(** A cached model: the root mesh of one import. *)
Record Template := mkTemplate { tpl_path : string; tpl_import : nat }.

(** The procedural builders [createDevice] falls back to, and the box of the
    demonstration manager. *)
Inductive Builder :=
  | EndpointModel
  | FortiGateModel
  | FortiSwitchModel
  | FortiAPModel
  | RouterModel
  | GenericDeviceModel
  | DemoBox.

Inductive ModelSource :=
  | FromTemplate (t : Template)
  | Procedural (b : Builder).

(** What the page's environment decides.
    - [ImportMeshAsync n path]: whether the [n]-th import the manager issues,
      of file [path], resolves with a mesh ([true]) or rejects ([false]).
    - [buildVisual src info]: whether building the visual of [info] from
      [src] returns a mesh ([true]) or throws ([false]).
    - [proceduralName b info]: the Babylon name a procedural builder gives
      its mesh. *)
Class Babylon := {
  ImportMeshAsync : nat -> string -> bool;
  buildVisual : ModelSource -> DeviceInfo -> bool;
  proceduralName : Builder -> DeviceInfo -> string
}.

Record Device := mkDevice { mesh : nat; info : DeviceInfo; visible : bool }.

(** [fetchLog] is a ghost field: the type key of every import issued so far,
    oldest first. *)
Record DeviceManager := mkDeviceManager {
  scene : list Node;
  devices : list (string * Device);
  labels : list (string * nat);
  deviceData : list DeviceInfo;
  loadedModels : gmap string (option Template);
  fetchLog : list string
}.

(** [new DeviceManager(scene)] on a scene without nodes. *)
Definition newDeviceManager : DeviceManager :=
  mkDeviceManager [] [] [] [] ∅ [].

Definition modelPaths : list (string * string) :=
  [ ("firewall", "assets/models/fortigate-61e.glb");
    ("switch", "assets/models/fortiswitch-124e-poe.glb");
    ("access_point", "assets/models/fortiap-231f.glb");
    ("router", "assets/models/router.glb");
    ("endpoint-laptop", "assets/models/endpoint-laptop.glb");
    ("endpoint-desktop", "assets/models/endpoint-desktop.glb");
    ("endpoint-mobile", "assets/models/endpoint-mobile.glb");
    ("endpoint-server", "assets/models/endpoint-server.glb") ].

(** One turn of the loop of [preloadModels]: import, then cache the mesh, or
    [null] when the import failed. *)
Definition preload_step `{Babylon} (s : DeviceManager) (entry : string * string) : DeviceManager :=
  let '(deviceType, modelPath) := entry in
  let n := length (fetchLog s) in
  let outcome := if ImportMeshAsync n modelPath then Some (mkTemplate modelPath n) else None in
  mkDeviceManager (scene s) (devices s) (labels s) (deviceData s)
    (<[deviceType := outcome]> (loadedModels s))
    (fetchLog s ++ [deviceType]).

Definition preloadModels `{Babylon} (s : DeviceManager) : DeviceManager :=
  fold_left preload_step modelPaths s.

(** [this.loadedModels.has(key) && this.loadedModels.get(key)], for a key that
    may be [undefined]. *)
Definition cached_model (s : DeviceManager) (key : option string) : option Template :=
  match key with
  | Some k =>
      match loadedModels s !! k with
      | Some (Some t) => Some t
      | _ => None
      end
  | None => None
  end.

(** The [switch] of [createDevice] over the procedural builders. *)
Definition procedural_for (t : option string) : Builder :=
  match t with
  | Some k =>
      if String.eqb k "firewall" then FortiGateModel
      else if String.eqb k "switch" then FortiSwitchModel
      else if String.eqb k "access_point" then FortiAPModel
      else if String.eqb k "router" then RouterModel
      else GenericDeviceModel
  | None => GenericDeviceModel
  end.

(** [a === b] for a string property [a] that may be missing. *)
Definition opt_eqb (a : option string) (b : string) : bool :=
  match a with
  | Some v => String.eqb v b
  | None => false
  end.

(** Which model [createDevice] instantiates for a descriptor. *)
Definition select_model (s : DeviceManager) (deviceInfo : DeviceInfo) : ModelSource :=
  if opt_eqb (type deviceInfo) "endpoint" then
    let endpointType := detectEndpointType deviceInfo in
    let modelKey := "endpoint-" ++ endpointType in
    match cached_model s (Some modelKey) with
    | Some t => FromTemplate t
    | None => Procedural EndpointModel
    end
  else
    match cached_model s (type deviceInfo) with
    | Some m => FromTemplate m
    | None => Procedural (procedural_for (type deviceInfo))
    end.

(** The Babylon name of the visual. *)
Definition visual_name `{Babylon} (src : ModelSource) (deviceInfo : DeviceInfo) : string :=
  match src with
  | FromTemplate _ => name deviceInfo ++ "_3d_model"
  | Procedural b => proceduralName b deviceInfo
  end.

(** The position [createDevice] gives the mesh. *)
Definition resolve_position (s : DeviceManager) (deviceInfo : DeviceInfo) : Vector3 :=
  match position deviceInfo with
  | Some p => explicitPosition p
  | None => autoPositionDevice (Z.of_nat (length (devices s)))
  end.

(** The plane [createLabel(mesh, text)] adds, parented to the mesh. *)
Definition label_node (meshId : nat) (text : string) (height : Q) : Node :=
  mkNode (LabelPlane text) (text ++ "_label") (Some meshId) (JBool true)
         (mkVector3 0 height 0).

(** [createDevice]: the whole body runs inside [try]; when building the
    visual throws, the handler logs and the manager is left as it was. *)
Definition createDevice `{Babylon} (s : DeviceManager) (deviceInfo : DeviceInfo) : DeviceManager :=
  let src := select_model s deviceInfo in
  if buildVisual src deviceInfo then
    let meshId := length (scene s) in
    let meshNode :=
      mkNode (Visual (name deviceInfo)) (visual_name src deviceInfo) None (JBool true)
             (resolve_position s deviceInfo) in
    mkDeviceManager
      (scene s ++ [meshNode; label_node meshId (name deviceInfo) (3 # 2)])
      (map_set (name deviceInfo) (mkDevice meshId deviceInfo true) (devices s))
      (map_set (name deviceInfo) (S meshId) (labels s))
      (deviceData s) (loadedModels s) (fetchLog s)
  else s.

Definition loadDevices `{Babylon} (deviceData : list DeviceInfo) (s : DeviceManager) : DeviceManager :=
  let s0 := mkDeviceManager (scene s) (devices s) (labels s) deviceData
                            (loadedModels s) (fetchLog s) in
  fold_left createDevice deviceData (preloadModels s0).

(** [getDeviceCount], [getAllDevices], [getDevicesByCategory] *)
Definition getDeviceCount (s : DeviceManager) : nat := length (devices s).

Definition getAllDevices (s : DeviceManager) : list Device := map snd (devices s).

Definition getDevicesByCategory (cat : string) (s : DeviceManager) : list Device :=
  filter (fun d => opt_eqb (type (info d)) cat = true) (getAllDevices s).

(** [shouldShow] of [filterByCategories] for one device. *)
Definition shouldShow (categories : list string) (key : option string) : bool :=
  arr_includes categories (Some "all") || arr_includes categories key.

Definition set_visible (v : bool) (d : Device) : Device :=
  mkDevice (mesh d) (info d) v.

(** The scene effects of one turn of the [forEach] of [filterByCategories]:
    the mesh takes [shouldShow]; the label, when the table has one under the
    device's name, takes [shouldShow && label.parent.isEnabled]. *)
Definition filter_scene_step (categories : list string) (lbls : list (string * nat))
    (sc : list Node) (entry : string * Device) : list Node :=
  let '(n, device) := entry in
  let show := shouldShow categories (type (info device)) in
  let sc1 := setEnabled (mesh device) (JBool show) sc in
  match map_get n lbls with
  | Some label => setEnabled label (js_and show JFunction) sc1
  | None => sc1
  end.

Definition filterByCategories (categories : list string) (s : DeviceManager) : DeviceManager :=
  mkDeviceManager
    (fold_left (filter_scene_step categories (labels s)) (devices s) (scene s))
    (map (fun e => (fst e, set_visible (shouldShow categories (type (info (snd e)))) (snd e)))
         (devices s))
    (labels s) (deviceData s) (loadedModels s) (fetchLog s).

Definition getVisibleDeviceCount (s : DeviceManager) : nat :=
  length (filter (fun d => visible d = true) (getAllDevices s)).

(** [toggleLabels(show)]: every label takes [show && label.parent.isEnabled]. *)
Definition toggleLabels (show : bool) (s : DeviceManager) : DeviceManager :=
  mkDeviceManager
    (fold_left (fun sc e => setEnabled (snd e) (js_and show JFunction) sc) (labels s) (scene s))
    (devices s) (labels s) (deviceData s) (loadedModels s) (fetchLog s).

(** The operations the page applies to a loaded registry from its filter
    check boxes and its label switch. *)
Inductive Op :=
  | OpFilter (categories : list string)
  | OpToggleLabels (show : bool).

Definition run_op (s : DeviceManager) (o : Op) : DeviceManager :=
  match o with
  | OpFilter categories => filterByCategories categories s
  | OpToggleLabels show => toggleLabels show s
  end.

Definition run_ops (ops : list Op) (s : DeviceManager) : DeviceManager :=
  fold_left run_op ops s.

(** Every entry of the label table is a plane of the scene whose parent is
    the mesh that the registry holds under the same name. *)
Definition labels_attached (s : DeviceManager) : Prop :=
  forall n l, map_get n (labels s) = Some l ->
    exists d nd, map_get n (devices s) = Some d /\
                 scene s !! l = Some nd /\ node_parent nd = Some (mesh d) /\
                 mesh d < length (scene s).

(** ** The demonstration manager *)

Module Demo.

(** [loadDevice]: a box named after the descriptor, left at the origin, then
    the registry entry and the label; the body runs inside [try]. *)
Definition loadDevice `{Babylon} (s : DeviceManager) (modelInfo : DeviceInfo) : DeviceManager :=
  if buildVisual (Procedural DemoBox) modelInfo then
    let meshId := length (scene s) in
    let meshNode :=
      mkNode (Visual (name modelInfo)) (name modelInfo) None (JBool true) (mkVector3 0 0 0) in
    mkDeviceManager
      (scene s ++ [meshNode; label_node meshId (name modelInfo) (1 # 2)])
      (map_set (name modelInfo) (mkDevice meshId modelInfo true) (devices s))
      (map_set (name modelInfo) (S meshId) (labels s))
      (deviceData s) (loadedModels s) (fetchLog s)
  else s.

(** Here the label takes [shouldShow] itself, and the key is [category]. *)
Definition filter_scene_step (categories : list string) (lbls : list (string * nat))
    (sc : list Node) (entry : string * Device) : list Node :=
  let '(n, device) := entry in
  let show := shouldShow categories (category (info device)) in
  let sc1 := setEnabled (mesh device) (JBool show) sc in
  match map_get n lbls with
  | Some label => setEnabled label (JBool show) sc1
  | None => sc1
  end.

Definition filterByCategories (categories : list string) (s : DeviceManager) : DeviceManager :=
  mkDeviceManager
    (fold_left (filter_scene_step categories (labels s)) (devices s) (scene s))
    (map (fun e => (fst e, set_visible (shouldShow categories (category (info (snd e)))) (snd e)))
         (devices s))
    (labels s) (deviceData s) (loadedModels s) (fetchLog s).

Definition run_op (s : DeviceManager) (o : Op) : DeviceManager :=
  match o with
  | OpFilter categories => filterByCategories categories s
  | OpToggleLabels show => toggleLabels show s
  end.

Definition run_ops (ops : list Op) (s : DeviceManager) : DeviceManager :=
  fold_left run_op ops s.

End Demo.

(** ** The connection manager *)

Record Line := mkLine {
  line_name : string;
  points : list Vector3;
  line_color : Q * Q * Q;
  isPickable : bool;
  line_enabled : bool
}.

(** [mesh1] and [mesh2] are the meshes as [createConnection] received them. *)
Record Connection := mkConnection {
  mesh1 : Node;
  mesh2 : Node;
  line : option Line;
  conn_visible : bool
}.

Record ConnectionManager := mkConnectionManager {
  connections : list Connection;
  cm_visible : bool
}.

Definition newConnectionManager : ConnectionManager := mkConnectionManager [] true.

(** The [points] option handed to [CreateLines]. *)
Definition link_points (p1 p2 : Vector3) : list Vector3 :=
  [ p1;
    mkVector3 ((vx p1 + vx p2) / 2) (1 # 10) ((vz p1 + vz p2) / 2);
    p2 ].

(** The connection object [createConnection] builds for two meshes: the
    meshes, the line through [link_points], gray and not pickable. *)
Definition connection_of (m1 m2 : Node) : Connection :=
  mkConnection m1 m2
    (Some (mkLine ("connection_" ++ node_name m1 ++ "_" ++ node_name m2)
                  (link_points (node_position m1) (node_position m2))
                  (1 # 2, 1 # 2, 1 # 2) false true))
    true.

(** [createConnection(mesh1, mesh2)] pushes it. *)
Definition createConnection (m1 m2 : Node) (cm : ConnectionManager) : ConnectionManager :=
  mkConnectionManager (connections cm ++ [connection_of m1 m2]) (cm_visible cm).

Definition toggleVisibility (show : bool) (cm : ConnectionManager) : ConnectionManager :=
  mkConnectionManager
    (map (fun c => mkConnection (mesh1 c) (mesh2 c)
                     (option_map (fun l => mkLine (line_name l) (points l) (line_color l)
                                                  (isPickable l) show) (line c))
                     (conn_visible c))
         (connections cm))
    show.

Definition getConnectionCount (cm : ConnectionManager) : nat := length (connections cm).

(** An entry of the [connections] array of a topology document. *)
Record ConnectionInfo := mkConnectionInfo {
  from : string;
  to : string;
  bandwidth : option Q
}.

(** Resolving an endpoint name against the registry: the device of that name
    and, through it, its mesh. *)
Definition resolve (dm : DeviceManager) (n : string) : option Node :=
  match map_get n (devices dm) with
  | Some d => scene dm !! mesh d
  | None => None
  end.

(** Both endpoints of a pair resolve. *)
Definition valid_pair (dm : DeviceManager) (p : ConnectionInfo) : bool :=
  match resolve dm (from p), resolve dm (to p) with
  | Some _, Some _ => true
  | _, _ => false
  end.

(** Modelled from the spec: [ConnectionManager.loadConnections], which
    [loadTopologyData] and [loadSampleData] call, is not defined by the
    [ConnectionManager] of the source files.  The specification: resolve each
    endpoint name against the device registry; skip, without failing, a pair
    that references an unknown name; create a connection for every other
    pair. *)
Definition loadConnections (dm : DeviceManager) (pairs : list ConnectionInfo)
    (cm : ConnectionManager) : ConnectionManager :=
  fold_left (fun cm p =>
               match resolve dm (from p), resolve dm (to p) with
               | Some m1, Some m2 => createConnection m1 m2 cm
               | _, _ => cm
               end) pairs cm.

(** ** Hosts and data used in the examples *)

(** A page on which no model file can be fetched and every builder works. *)
Definition offline_host : Babylon :=
  {| ImportMeshAsync := fun _ _ => false;
     buildVisual := fun _ _ => true;
     proceduralName := fun _ d => name d |}.

(** A page on which the router file is missing and the generic builder throws. *)
Definition faulty_host : Babylon :=
  {| ImportMeshAsync := fun _ path => negb (String.eqb path "assets/models/router.glb");
     buildVisual := fun src _ =>
       match src with
       | Procedural GenericDeviceModel => false
       | _ => true
       end;
     proceduralName := fun _ d => name d |}.

(** A descriptor with a name and a type only. *)
Definition plain (n t : string) : DeviceInfo := mkDeviceInfo n (Some t) (Some t) None None.

(** A descriptor with an explicit position. *)
Definition placed (n t : string) (x y z : Q) : DeviceInfo :=
  mkDeviceInfo n (Some t) (Some t) None (Some (mkPositionInfo (Some x) (Some y) (Some z))).


(** Two firewalls and three switches. *)
Definition two_firewalls_three_switches : list DeviceInfo :=
  [ plain "fw1" "firewall"; plain "fw2" "firewall";
    plain "sw1" "switch"; plain "sw2" "switch"; plain "sw3" "switch" ].

(** Five devices without explicit position. *)
Definition five_unplaced : list DeviceInfo :=
  [ plain "d0" "switch"; plain "d1" "switch"; plain "d2" "switch";
    plain "d3" "switch"; plain "d4" "switch" ].

(** The position of the mesh of the device registered under [n]. *)
Definition device_position (s : DeviceManager) (n : string) : option Vector3 :=
  option_map node_position (resolve s n).

(** ** Predicates used in the statements *)

(** How an entry of the registry changes under a filter on [categories] that
    reads the key [key] of the descriptor: the name, the descriptor and the
    mesh stay; with "all" selected the device is visible; otherwise it is
    visible exactly when its key is one of the selected categories. *)
Definition filtered_as (categories : list string) (key : DeviceInfo -> option string)
    (before after : string * Device) : Prop :=
  fst after = fst before /\
  info (snd after) = info (snd before) /\
  mesh (snd after) = mesh (snd before) /\
  (In "all" categories -> visible (snd after) = true) /\
  (~ In "all" categories ->
   (visible (snd after) = true <->
    exists t, key (info (snd before)) = Some t /\ In t categories)).

(** Two scenes have the same nodes up to their enabled flags. *)
Definition same_links (sc sc' : list Node) : Prop :=
  length sc' = length sc /\
  forall j, (node_parent <$> (sc' !! j)) = (node_parent <$> (sc !! j)).

(** Every device of the registry points at a node of the scene. *)
Definition devices_in_scene (s : DeviceManager) : Prop :=
  forall n d, map_get n (devices s) = Some d -> mesh d < length (scene s).


(** The manager after a sequence of [loadDevices] calls on a fresh page. *)
Definition load_all `{Babylon} (batches : list (list DeviceInfo)) : DeviceManager :=
  fold_left (fun s batch => loadDevices batch s) batches newDeviceManager.





(** The connection [loadConnections] creates for a pair, if any. *)
Definition link_of (dm : DeviceManager) (p : ConnectionInfo) : option Connection :=
  match resolve dm (from p), resolve dm (to p) with
  | Some m1, Some m2 => Some (connection_of m1 m2)
  | _, _ => None
  end.

(** A page on which the first eight imports fail and the later ones succeed. *)
Definition recovering_host : Babylon :=
  {| ImportMeshAsync := fun n _ => (8 <=? n)%nat;
     buildVisual := fun _ _ => true;
     proceduralName := fun _ d => name d |}.

(** The last connection of a manager. *)
Definition last_connection (cm : ConnectionManager) : option Connection :=
  last (connections cm).

(** ** Scene writes *)

(** The node with its own flag replaced, as [setEnabled] leaves it. *)
Definition with_enabled (v : JsVal) (n : Node) : Node :=
  mkNode (node_kind n) (node_name n) (node_parent n) v (node_position n).

(** A sequence of [setEnabled] calls, oldest first. *)
Definition apply_writes (ws : list (nat * JsVal)) (sc : list Node) : list Node :=
  fold_left (fun sc w => setEnabled (fst w) (snd w) sc) ws sc.

(** The value of the last call in [ws] that addresses node [j]. *)
Fixpoint last_write (j : nat) (ws : list (nat * JsVal)) : option JsVal :=
  match ws with
  | [] => None
  | (i, v) :: ws' =>
      match last_write j ws' with
      | Some v' => Some v'
      | None => if Nat.eqb i j then Some v else None
      end
  end.

(** The [setEnabled] calls one turn of [filterByCategories] makes; [label_value]
    is what the label takes for a given [shouldShow]. *)
Definition filter_step_writes (key : DeviceInfo -> option string)
    (label_value : bool -> JsVal) (categories : list string)
    (lbls : list (string * nat)) (entry : string * Device) : list (nat * JsVal) :=
  let show := shouldShow categories (key (info (snd entry))) in
  (mesh (snd entry), JBool show) ::
  match map_get (fst entry) lbls with
  | Some label => [(label, label_value show)]
  | None => []
  end.

Definition filter_writes (key : DeviceInfo -> option string)
    (label_value : bool -> JsVal) (categories : list string)
    (lbls : list (string * nat)) (ds : list (string * Device)) : list (nat * JsVal) :=
  flat_map (filter_step_writes key label_value categories lbls) ds.

(** The [setEnabled] calls of [toggleLabels]. *)
Definition toggle_writes (show : bool) (lbls : list (string * nat)) : list (nat * JsVal) :=
  map (fun e => (snd e, js_and show JFunction)) lbls.

(** A registry as the managers build it: names are distinct keys of both
    tables; a device's mesh is a parentless visual created for its name; a
    label is a plane created for its name and parented to the mesh of the
    device of that name. *)
Definition registry_wf (s : DeviceManager) : Prop :=
  NoDup (keys (devices s)) /\
  NoDup (keys (labels s)) /\
  (forall n d, map_get n (devices s) = Some d ->
     exists nd, scene s !! mesh d = Some nd /\
                node_kind nd = Visual n /\ node_parent nd = None) /\
  (forall n l, map_get n (labels s) = Some l ->
     exists nd d, scene s !! l = Some nd /\ node_kind nd = LabelPlane n /\
                  map_get n (devices s) = Some d /\ node_parent nd = Some (mesh d)).

(** Two scenes differ in enabled flags only. *)
Definition same_nodes (sc sc' : list Node) : Prop :=
  forall j, (with_enabled (JBool true) <$> (sc' !! j)) = (with_enabled (JBool true) <$> (sc !! j)).

(** ** The page around the managers *)

(** [getDevicesByCategory] of the demonstration manager, which compares the
    [category] of the descriptor. *)
Definition getDevicesByCategory_demo (cat : string) (s : DeviceManager) : list Device :=
  filter (fun d => opt_eqb (category (info d)) cat = true) (getAllDevices s).

(** The nested [forEach] of [createConnections]: every device of [ups] is
    linked to every device of [downs]; the meshes are read from the scene. *)
Definition connect_all (sc : list Node) (ups downs : list Device)
    (cm : ConnectionManager) : ConnectionManager :=
  fold_left
    (fun cm up =>
       fold_left
         (fun cm down =>
            match sc !! mesh up, sc !! mesh down with
            | Some m1, Some m2 => createConnection m1 m2 cm
            | _, _ => cm
            end)
         downs cm)
    ups cm.

(** [NetworkVisualizer.createConnections]; [byCategory] is the
    [getDevicesByCategory] of the device manager in use. *)
Definition createConnections (byCategory : string -> DeviceManager -> list Device)
    (dm : DeviceManager) (cm : ConnectionManager) : ConnectionManager :=
  let firewalls := byCategory "firewall" dm in
  let switches := byCategory "switch" dm in
  let accessPoints := byCategory "access_point" dm in
  connect_all (scene dm) switches accessPoints
    (connect_all (scene dm) firewalls switches cm).

(** A check box of the category filter. *)
Record Checkbox := mkCheckbox { cb_value : string; cb_checked : bool }.

(** [updateDeviceVisibility]: the values of the checked boxes, in document
    order, go to [filterByCategories]. *)
Definition selectedCategories (boxes : list Checkbox) : list string :=
  map cb_value (filter (fun cb => cb_checked cb = true) boxes).

Definition updateDeviceVisibility (boxes : list Checkbox) (s : DeviceManager) : DeviceManager :=
  filterByCategories (selectedCategories boxes) s.

(** ** Hovering *)

Record Color3 := mkColor3 { c_r : Q; c_g : Q; c_b : Q }.

(** What [onDeviceHover] touches of a mesh: its scaling and, when the mesh
    has a material, the material's emissive colour. *)
Record Look := mkLook { scaling : Vector3; emissiveColor : option Color3 }.

(** [onDeviceHover(mesh, isHovering)]; [tint] is the emissive colour of the
    hovered state, (0.1, 0.2, 0.1) in [DeviceManager.js] and (0.2, 0.2, 0.2)
    in the demonstration manager. *)
Definition onDeviceHover (tint : Color3) (isHovering : bool) (m : Look) : Look :=
  if isHovering then
    mkLook (mkVector3 (11 # 10) (11 # 10) (11 # 10))
           (option_map (fun _ => tint) (emissiveColor m))
  else
    mkLook (mkVector3 1 1 1)
           (option_map (fun _ => mkColor3 0 0 0) (emissiveColor m)).

(** A run of pointer events on one mesh: [true] for over, [false] for out. *)
Definition hover_events (tint : Color3) (events : list bool) (m : Look) : Look :=
  fold_left (fun m e => onDeviceHover tint e m) events m.

(** ** Animation of the demonstration manager *)

(** The demonstration manager with its animation switch, the number of
    callbacks it has registered with [scene.registerBeforeRender] (none is
    ever unregistered), and the [rotation.y] of the meshes that were turned
    (0 for the others). *)
Record Stage := mkStage {
  stage_manager : DeviceManager;
  animationEnabled : bool;
  beforeRender : nat;
  rotation_y : gmap nat Q
}.

Definition newStage (dm : DeviceManager) : Stage := mkStage dm false 0 ∅.

Definition rotation_of (rot : gmap nat Q) (m : nat) : Q := default 0%Q (rot !! m).

Definition startAnimation (st : Stage) : Stage :=
  if negb (animationEnabled st) then st
  else mkStage (stage_manager st) (animationEnabled st) (S (beforeRender st)) (rotation_y st).

Definition toggleAnimation (enabled : bool) (st : Stage) : Stage :=
  let st1 := mkStage (stage_manager st) enabled (beforeRender st) (rotation_y st) in
  if enabled then startAnimation st1 else st1.

(** One registered callback, run before a frame. *)
Definition animation_callback (st : Stage) (rot : gmap nat Q) : gmap nat Q :=
  if negb (animationEnabled st) then rot
  else
    fold_left
      (fun rot e =>
         if visible (snd e)
         then <[mesh (snd e) := (rotation_of rot (mesh (snd e)) + (1 # 100))%Q]> rot
         else rot)
      (devices (stage_manager st)) rot.

(** A frame runs every registered callback. *)
Definition render_frame (st : Stage) : Stage :=
  mkStage (stage_manager st) (animationEnabled st) (beforeRender st)
          (Nat.iter (beforeRender st) (animation_callback st) (rotation_y st)).

(** The page's animation switch, flipped through a list of values. *)
Definition toggle_all (ts : list bool) (st : Stage) : Stage :=
  fold_left (fun st t => toggleAnimation t st) ts st.

(** ** The sample layout *)

(** The node moved to [p], as [mesh.position = p] leaves it. *)
Definition with_position (p : Vector3) (n : Node) : Node :=
  mkNode (node_kind n) (node_name n) (node_parent n) (node_enabled n) p.

Definition setPosition (i : nat) (p : Vector3) (sc : list Node) : list Node :=
  alter (with_position p) i sc.

(** The [categories] table of [createSampleTopology]: per category the [x]
    and [z] of its row.  (The colour of the table, which the loop also
    writes into the material of each placed mesh, is not part of the scene
    model.) *)
Definition sampleRows : list (string * (Q * Q)) :=
  [ ("firewall", (0, 0)); ("switch", (5, 0));
    ("access_point", (-5, 0)); ("router", (0, 5)) ]%Q.

(** [new BABYLON.Vector3(config.x + (i - 1) * 2, 0.5, config.z)] *)
Definition row_position (config : Q * Q) (i : nat) : Vector3 :=
  mkVector3 (fst config + (inject_Z (Z.of_nat i) - 1) * 2) (1 # 2) (snd config).

(** The inner loop for one category: its first three devices, at most, are
    put on the row. *)
Definition place_category (byCategory : string -> DeviceManager -> list Device)
    (dm : DeviceManager) (sc : list Node) (row : string * (Q * Q)) : list Node :=
  let categoryDevices := byCategory (fst row) dm in
  let count := Nat.min (length categoryDevices) 3 in
  fold_left
    (fun sc i =>
       match categoryDevices !! i with
       | Some device => setPosition (mesh device) (row_position (snd row) i) sc
       | None => sc
       end)
    (seq 0 count) sc.

(** [createSampleTopology]: nothing on an empty registry; otherwise the rows
    are laid out and [createConnections] runs. *)
Definition createSampleTopology (byCategory : string -> DeviceManager -> list Device)
    (dm : DeviceManager) (cm : ConnectionManager) : DeviceManager * ConnectionManager :=
  match getAllDevices dm with
  | [] => (dm, cm)
  | _ :: _ =>
      let dm' :=
        mkDeviceManager
          (fold_left (place_category byCategory dm) sampleRows (scene dm))
          (devices dm) (labels dm) (deviceData dm) (loadedModels dm) (fetchLog dm) in
      (dm', createConnections byCategory dm' cm)
  end.

(** [loadModels] of the page of the demonstration manager, once the manifest
    is fetched: every model is loaded, then the sample layout is made. *)
Definition loadModels `{Babylon} (models : list DeviceInfo)
    (dm : DeviceManager) (cm : ConnectionManager) : DeviceManager * ConnectionManager :=
  createSampleTopology getDevicesByCategory_demo (fold_left Demo.loadDevice models dm) cm.

(** The moves of the sample layout, oldest first. *)
Definition row_moves (byCategory : string -> DeviceManager -> list Device)
    (dm : DeviceManager) (row : string * (Q * Q)) : list (nat * Vector3) :=
  imap (fun i device => (mesh device, row_position (snd row) i))
       (take 3 (byCategory (fst row) dm)).

(** A sequence of moves. *)
Definition apply_moves (ms : list (nat * Vector3)) (sc : list Node) : list Node :=
  fold_left (fun sc m => setPosition (fst m) (snd m) sc) ms sc.

(** The devices whose descriptor has [cat] under [key]: [getDevicesByCategory]
    for [key = type], the demonstration manager's for [key = category]. *)
Definition devices_by (key : DeviceInfo -> option string) (cat : string)
    (s : DeviceManager) : list Device :=
  filter (fun d => opt_eqb (key (info d)) cat = true) (getAllDevices s).

(** How many visible entries of a registry have [m] for mesh. *)
Definition visible_hits (m : nat) (ds : list (string * Device)) : nat :=
  length (filter (fun e => visible (snd e) && Nat.eqb (mesh (snd e)) m = true) ds).

(** * Properties *)

(** ** Strings *)

Lemma startsWith_spec (s p : string) :
  startsWith s p = true <-> exists rest, s = p ++ rest.
Proof.
  unfold startsWith. revert s.
  induction p as [|c p IH]; intros s.
  - destruct s; simpl; split; eauto.
  - destruct s as [|c' s]; simpl.
    + split; [discriminate | intros [rest Hr]; discriminate].
    + destruct (Ascii.ascii_dec c c') as [->|Hne].
      * rewrite IH. split; intros [rest Hr]; exists rest.
        -- now rewrite Hr.
        -- now inversion Hr.
      * split; [discriminate | intros [rest Hr]; inversion Hr; congruence].
Qed.

(** [str_includes] is substring containment. *)
Lemma str_includes_spec (s sub : string) :
  str_includes s sub = true <-> exists before after, s = before ++ sub ++ after.
Proof.
  induction s as [|c s IH]; cbn [str_includes].
  - rewrite orb_false_r, startsWith_spec. split.
    + intros [rest Hr]. now exists "", rest.
    + intros [before [after Hs]]. destruct before; simpl in Hs.
      * eauto.
      * discriminate.
  - rewrite orb_true_iff, startsWith_spec, IH. split.
    + intros [[rest Hr] | [before [after Hs]]].
      * now exists "", rest.
      * exists (String c before), after. simpl. now rewrite Hs.
    + intros [before [after Hs]]. destruct before as [|c' before]; simpl in Hs.
      * left. eauto.
      * right. inversion Hs. eauto.
Qed.

Lemma arr_includes_In (xs : list string) (v : string) :
  arr_includes xs (Some v) = true <-> In v xs.
Proof.
  simpl. rewrite existsb_exists. split.
  - intros [x [Hin Heq]]. apply String.eqb_eq in Heq. now subst.
  - intros Hin. exists v. split; [assumption | apply String.eqb_refl].
Qed.

(** ** detectEndpointType *)


Lemma scan_prefixes_Some (m vendor : string) (prefixes : list string) (r : string) :
  scan_prefixes m vendor prefixes = Some r ->
  r = (if String.eqb vendor "apple" then "laptop" else "desktop").
Proof.
  induction prefixes as [|p ps IH]; simpl; [discriminate|].
  destruct (startsWith m p); [congruence | exact IH].
Qed.



Lemma name_has_unfold (n : string) (keywords : list string) :
  name_has n keywords = existsb (str_includes (toLowerCase n)) keywords.
Proof. reflexivity. Qed.



(** ** JavaScript maps *)

Lemma map_get_set_eq {V} (k : string) (v : V) (m : list (string * V)) :
  map_get k (map_set k v m) = Some v.
Proof.
  induction m as [|[k' v'] m IH]; simpl.
  - now rewrite String.eqb_refl.
  - destruct (String.eqb k' k) eqn:He; simpl.
    + now rewrite String.eqb_refl.
    + now rewrite He.
Qed.

Lemma map_get_set_ne {V} (k k0 : string) (v : V) (m : list (string * V)) :
  k0 <> k -> map_get k0 (map_set k v m) = map_get k0 m.
Proof.
  intros Hne. induction m as [|[k' v'] m IH]; simpl.
  - destruct (String.eqb k k0) eqn:He; [apply String.eqb_eq in He; congruence | reflexivity].
  - destruct (String.eqb k' k) eqn:He; simpl.
    + apply String.eqb_eq in He. subst k'.
      destruct (String.eqb k k0) eqn:He'; [apply String.eqb_eq in He'; congruence | reflexivity].
    + now rewrite IH.
Qed.

Lemma map_get_Some_In {V} (k : string) (v : V) (m : list (string * V)) :
  map_get k m = Some v -> In (k, v) m.
Proof.
  induction m as [|[k' v'] m IH]; simpl; [discriminate|].
  destruct (String.eqb k' k) eqn:He.
  - apply String.eqb_eq in He. intros [= ->]. left. now subst.
  - intros Hg. right. auto.
Qed.

Lemma map_get_is_Some {V} (k : string) (m : list (string * V)) :
  is_Some (map_get k m) <-> In k (keys m).
Proof.
  induction m as [|[k' v'] m IH]; simpl.
  - split; [intros [x Hx]; discriminate | intros []].
  - destruct (String.eqb k' k) eqn:He.
    + apply String.eqb_eq in He. split; eauto.
    + rewrite IH. apply String.eqb_neq in He. tauto.
Qed.

(** [set] on a present key leaves the key order alone; on an absent key it
    appends the key. *)
Lemma keys_map_set {V} (k : string) (v : V) (m : list (string * V)) :
  keys (map_set k v m) =
  if existsb (String.eqb k) (keys m) then keys m else (keys m ++ [k])%list.
Proof.
  unfold keys. induction m as [|[k' v'] m IH]; simpl; [reflexivity|].
  rewrite (String.eqb_sym k k').
  destruct (String.eqb k' k) eqn:He; simpl.
  - apply String.eqb_eq in He. now subst.
  - rewrite IH. now destruct (existsb (String.eqb k) (map fst m)).
Qed.

Lemma existsb_eqb_In (k : string) (ks : list string) :
  existsb (String.eqb k) ks = true <-> In k ks.
Proof.
  rewrite existsb_exists. split.
  - intros [x [Hin He]]. apply String.eqb_eq in He. now subst.
  - intros Hin. exists k. split; [assumption | apply String.eqb_refl].
Qed.

Lemma NoDup_keys_map_set {V} (k : string) (v : V) (m : list (string * V)) :
  NoDup (keys m) -> NoDup (keys (map_set k v m)).
Proof.
  intros Hnd. rewrite keys_map_set.
  destruct (existsb (String.eqb k) (keys m)) eqn:He; [assumption|].
  apply NoDup_app. split; [assumption|]. split.
  - intros x Hx Hin. apply list_elem_of_In in Hx.
    apply list_elem_of_In in Hin. destruct Hin as [<-|[]].
    apply existsb_eqb_In in Hx. congruence.
  - apply NoDup_singleton.
Qed.

Lemma map_get_map_values {V W} (g : V -> W) (k : string) (m : list (string * V)) :
  map_get k (map (fun e => (fst e, g (snd e))) m) = option_map g (map_get k m).
Proof.
  induction m as [|[k' v'] m IH]; simpl; [reflexivity|].
  destruct (String.eqb k' k); [reflexivity | exact IH].
Qed.

(** ** Auto-layout *)

(** [Z.sqrt_up] is the ceiling of the square root. *)
Lemma gridSize_spec (index : Z) :
  (0 <= index)%Z ->
  let gridSize := Z.sqrt_up (index + 1) in
  (0 < gridSize /\ (gridSize - 1) * (gridSize - 1) < index + 1 <= gridSize * gridSize)%Z.
Proof.
  intros Hi gridSize.
  pose proof (Z.sqrt_up_spec (index + 1) ltac:(lia)) as Hs.
  pose proof (Z.sqrt_up_pos (index + 1)) as Hp.
  unfold gridSize. replace (Z.sqrt_up (index + 1) - 1)%Z with (Z.pred (Z.sqrt_up (index + 1))) by lia.
  split; [apply Hp; lia | exact Hs].
Qed.

Lemma same_pointb_spec (a b : Vector3) :
  same_pointb a b = true <-> same_point a b.
Proof.
  unfold same_pointb, same_point.
  rewrite !andb_true_iff, !Qeq_bool_iff. tauto.
Qed.

Lemma pairwise_distinct_spec (ps : list Vector3) :
  pairwise_distinct ps = true <->
  forall i j p q, (i < j)%nat -> ps !! i = Some p -> ps !! j = Some q -> ~ same_point p q.
Proof.
  induction ps as [|p0 ps IH]; simpl.
  - split; [intros _ i j p q _ Hi; discriminate | reflexivity].
  - rewrite andb_true_iff, negb_true_iff, IH. split.
    + intros [Hhead Htail] i j p q Hlt Hi Hj Hsame.
      destruct j as [|j]; [lia|]. simpl in Hj.
      destruct i as [|i]; simpl in Hi.
      * inversion Hi; subst p0.
        assert (existsb (same_pointb p) ps = true); [|congruence].
        apply existsb_exists. exists q. split.
        -- apply list_elem_of_In. eapply list_elem_of_lookup_2; eauto.
        -- now apply same_pointb_spec.
      * apply (Htail i j p q); auto. lia.
    + intros Hall. split.
      * destruct (existsb (same_pointb p0) ps) eqn:He; [|reflexivity].
        exfalso. apply existsb_exists in He. destruct He as [q [Hq Hs]].
        apply list_elem_of_In, list_elem_of_lookup_1 in Hq. destruct Hq as [j Hj].
        apply (Hall 0%nat (S j) p0 q); auto; [lia|]. now apply same_pointb_spec.
      * intros i j p q Hlt Hi Hj. apply (Hall (S i) (S j) p q); auto. lia.
Qed.

(** Within one grid size the cells are distinct: two indices that see the
    same [gridSize] and land on the same point are the same index. *)
Lemma same_grid_distinct (i j : Z) :
  (0 <= i)%Z -> (0 <= j)%Z ->
  Z.sqrt_up (i + 1) = Z.sqrt_up (j + 1) ->
  same_point (autoPositionDevice i) (autoPositionDevice j) -> i = j.
Proof.
  intros Hi Hj Hg (Hx & _ & Hz).
  unfold autoPositionDevice in Hx, Hz. cbn [vx vz] in Hx, Hz.
  rewrite <- Hg in Hx, Hz.
  pose proof (gridSize_spec i Hi) as [Hpos _]. cbv zeta in Hpos.
  set (g := Z.sqrt_up (i + 1)) in *.
  assert (Hcol : (i mod g = j mod g)%Z).
  { apply inject_Z_injective. change (inject_Z 4) with 4%Q in Hx. lra. }
  assert (Hrow : (i / g = j / g)%Z).
  { apply inject_Z_injective. change (inject_Z 4) with 4%Q in Hz. lra. }
  rewrite (Z.div_mod i g), (Z.div_mod j g) by lia. congruence.
Qed.

(** Up to four devices the layout is free of collisions. *)
Lemma auto_layout_upto_four (n : nat) :
  (n <= 4)%nat -> pairwise_distinct (auto_layout n) = true.
Proof.
  intros Hn.
  destruct n as [|[|[|[|[|n]]]]]; try lia; vm_compute; reflexivity.
Qed.

Lemma auto_layout_lookup (n i : nat) :
  (i < n)%nat -> auto_layout n !! i = Some (autoPositionDevice (Z.of_nat i)).
Proof.
  intros Hi. unfold auto_layout.
  change (map (fun i => autoPositionDevice (Z.of_nat i)) (seq 0 n))
    with ((fun i => autoPositionDevice (Z.of_nat i)) <$> seq 0 n).
  rewrite list_lookup_fmap, lookup_seq_lt by assumption. reflexivity.
Qed.

(** From five devices on, every auto-placed batch has a collision. *)
Lemma auto_layout_collides_from_five (n : nat) :
  (5 <= n)%nat -> pairwise_distinct (auto_layout n) = false.
Proof.
  intros Hn. destruct (pairwise_distinct (auto_layout n)) eqn:Hd; [|reflexivity].
  exfalso.
  apply (proj1 (pairwise_distinct_spec _) Hd 0%nat 4%nat
           (autoPositionDevice 0) (autoPositionDevice 4)).
  - lia.
  - apply (auto_layout_lookup n 0). lia.
  - apply (auto_layout_lookup n 4). lia.
  - now vm_compute.
Qed.

(** C1. The fifth device of a batch without explicit positions is placed on
    the first: index 0 (grid size 1) and index 4 (grid size 3) both resolve
    to the point (-2, 1, -2), so the positions of five auto-placed devices
    are not pairwise distinct. *)
Theorem auto_layout_collision :
  same_point (autoPositionDevice 0) (mkVector3 (-2) 1 (-2)) /\
  same_point (autoPositionDevice 4) (mkVector3 (-2) 1 (-2)) /\
  pairwise_distinct (auto_layout 5) = false /\
  exists p0 p4,
    device_position (@loadDevices offline_host five_unplaced newDeviceManager) "d0" = Some p0 /\
    device_position (@loadDevices offline_host five_unplaced newDeviceManager) "d4" = Some p4 /\
    same_point p0 p4.
Proof.
  split; [|split; [|split]].
  - now vm_compute.
  - now vm_compute.
  - now vm_compute.
  - eexists. eexists. split; [|split].
    + vm_compute. reflexivity.
    + vm_compute. reflexivity.
    + now vm_compute.
Qed.

(** ** createDevice *)

Lemma createDevice_built `{Babylon} (s : DeviceManager) (d : DeviceInfo) :
  buildVisual (select_model s d) d = true ->
  createDevice s d =
    mkDeviceManager
      (scene s ++ [mkNode (Visual (name d)) (visual_name (select_model s d) d) None (JBool true)
                          (resolve_position s d);
                   label_node (length (scene s)) (name d) (3 # 2)])%list
      (map_set (name d) (mkDevice (length (scene s)) d true) (devices s))
      (map_set (name d) (S (length (scene s))) (labels s))
      (deviceData s) (loadedModels s) (fetchLog s).
Proof. intros Hb. unfold createDevice. now rewrite Hb. Qed.


(** Creating a device reads the model cache and never writes it, and issues
    no import. *)
Lemma createDevice_cache `{Babylon} (s : DeviceManager) (d : DeviceInfo) :
  loadedModels (createDevice s d) = loadedModels s /\
  fetchLog (createDevice s d) = fetchLog s /\
  deviceData (createDevice s d) = deviceData s.
Proof. unfold createDevice. destruct (buildVisual _ d); simpl; auto. Qed.

Lemma select_model_cache (s s' : DeviceManager) (d : DeviceInfo) :
  loadedModels s' = loadedModels s -> select_model s' d = select_model s d.
Proof.
  intros Hm. unfold select_model, cached_model. now rewrite Hm.
Qed.

Lemma createDevice_position `{Babylon} (s : DeviceManager) (d : DeviceInfo) :
  buildVisual (select_model s d) d = true ->
  device_position (createDevice s d) (name d) = Some (resolve_position s d).
Proof.
  intros Hb. rewrite (createDevice_built s d Hb).
  unfold device_position, resolve. cbn [devices scene].
  rewrite map_get_set_eq. cbn [mesh].
  now rewrite list_lookup_middle.
Qed.

Lemma or_default_falsy (v : coord) (d : Q) : falsy v -> or_default v d = d.
Proof.
  intros [-> | (q & -> & Hq)]; simpl; [reflexivity|].
  apply Qeq_bool_iff in Hq. now rewrite Hq.
Qed.

Lemma or_default_nonzero (q d : Q) : ~ (q == 0)%Q -> or_default (Some q) d = q.
Proof.
  intros Hq. simpl. destruct (Qeq_bool q 0) eqn:He; [|reflexivity].
  apply Qeq_bool_iff in He. contradiction.
Qed.

(** C10. For a descriptor with an explicit position whose visual builds, the
    stored position takes every nonzero coordinate unchanged; a missing or
    zero [x] or [z] becomes 0; a missing or zero [y] becomes 1, so that an
    explicit height of 0 is replaced by 1. *)
Theorem explicit_position_defaults `{Babylon} (s : DeviceManager) (d : DeviceInfo)
    (p : PositionInfo) :
  position d = Some p ->
  buildVisual (select_model s d) d = true ->
  exists v, device_position (createDevice s d) (name d) = Some v /\
    (falsy (px p) -> vx v = 0%Q) /\
    (forall q, px p = Some q -> ~ (q == 0)%Q -> vx v = q) /\
    (falsy (py p) -> vy v = 1%Q) /\
    (forall q, py p = Some q -> ~ (q == 0)%Q -> vy v = q) /\
    (falsy (pz p) -> vz v = 0%Q) /\
    (forall q, pz p = Some q -> ~ (q == 0)%Q -> vz v = q).
Proof.
  intros Hp Hb. exists (explicitPosition p). split.
  - rewrite (createDevice_position s d Hb). unfold resolve_position. now rewrite Hp.
  - unfold explicitPosition. cbn [vx vy vz].
    repeat split;
      try (intros Hf; now apply or_default_falsy);
      intros q Hq Hnz; rewrite Hq; now apply or_default_nonzero.
Qed.

(** A firewall described at (3, 0, -5) is stored at (3, 1, -5). *)
Lemma explicit_position_defaults_witness :
  exists v,
    device_position
      (@createDevice offline_host newDeviceManager (placed "fw" "firewall" 3 0 (-5))) "fw"
      = Some v /\
    vx v = 3%Q /\ vy v = 1%Q /\ vz v = (-5)%Q.
Proof.
  destruct (@explicit_position_defaults offline_host newDeviceManager
              (placed "fw" "firewall" 3 0 (-5))
              (mkPositionInfo (Some 3%Q) (Some 0%Q) (Some (-5)%Q)) eq_refl eq_refl)
    as (v & Hv & _ & Hx & Hy & _ & _ & Hz).
  exists v. split; [exact Hv|]. split; [|split].
  - apply Hx; [reflexivity | discriminate].
  - apply Hy. right. exists 0%Q. split; reflexivity.
  - apply Hz; [reflexivity | discriminate].
Defined.

(** ** filterByCategories *)

Lemma shouldShow_all (categories : list string) (key : option string) :
  In "all" categories -> shouldShow categories key = true.
Proof.
  intros Hall. unfold shouldShow.
  now rewrite (proj2 (arr_includes_In categories "all") Hall).
Qed.

Lemma shouldShow_selected (categories : list string) (key : option string) :
  ~ In "all" categories ->
  (shouldShow categories key = true <-> exists t, key = Some t /\ In t categories).
Proof.
  intros Hno. unfold shouldShow.
  destruct (arr_includes categories (Some "all")) eqn:Hall.
  - apply arr_includes_In in Hall. contradiction.
  - rewrite orb_false_l. destruct key as [t|].
    + rewrite arr_includes_In. split; [eauto | intros [t' [[= ->] Hin]]; assumption].
    + simpl. split; [discriminate | intros [t [Ht _]]; discriminate].
Qed.

Lemma Forall2_map_self {A B} (R : A -> B -> Prop) (f : A -> B) (l : list A) :
  (forall x, R x (f x)) -> Forall2 R l (map f l).
Proof. intros HR. induction l; simpl; constructor; auto. Qed.

Lemma filter_length_map {A B} (f : A -> B) (P : B -> bool) (l : list A) :
  length (filter (fun y => P y = true) (map f l)) =
  length (filter (fun x => P (f x) = true) l).
Proof.
  induction l as [|x l IH]; [reflexivity|].
  cbn [map]. rewrite !filter_cons.
  destruct (decide (P (f x) = true)); simpl; now rewrite IH.
Qed.

Lemma filter_length_ext {A} (P Q : A -> bool) (l : list A) :
  (forall x, P x = Q x) ->
  length (filter (fun x => P x = true) l) = length (filter (fun x => Q x = true) l).
Proof.
  intros Hext. induction l as [|x l IH]; [reflexivity|].
  rewrite !filter_cons.
  destruct (decide (P x = true)) as [HP|HP], (decide (Q x = true)) as [HQ|HQ];
    simpl; rewrite ?IH; try reflexivity; rewrite Hext in HP; contradiction.
Qed.

(** The visible count after a filter is the number of devices the filter
    shows. *)
Lemma visible_count_filter (categories : list string) (s : DeviceManager) :
  getVisibleDeviceCount (filterByCategories categories s) =
  length (filter (fun d => shouldShow categories (type (info d)) = true) (getAllDevices s)).
Proof.
  unfold getVisibleDeviceCount, getAllDevices, filterByCategories. cbn [devices].
  rewrite map_map. cbn [snd].
  rewrite (filter_length_map (fun e => set_visible _ (snd e)) visible).
  rewrite (filter_length_map snd (fun d => shouldShow categories (type (info d)))).
  reflexivity.
Qed.

(** C2. After [filterByCategories(selected)] the registry holds the same
    devices in the same order; when [selected] contains "all" every device
    is visible, otherwise a device is visible exactly when its type (its
    category, for the demonstration manager) is a member of [selected].
    Filtering on one category other than "all" leaves as many devices
    visible as [getDevicesByCategory] returns; with two firewalls and three
    switches loaded, the filter on "firewall" leaves two. *)
Theorem filterByCategories_visible (categories : list string) (s : DeviceManager) :
  Forall2 (filtered_as categories type)
          (devices s) (devices (filterByCategories categories s)) /\
  Forall2 (filtered_as categories category)
          (devices s) (devices (Demo.filterByCategories categories s)) /\
  (forall c, c <> "all" ->
     getVisibleDeviceCount (filterByCategories [c] s) = length (getDevicesByCategory c s)) /\
  getVisibleDeviceCount
    (filterByCategories ["firewall"]
       (@loadDevices offline_host two_firewalls_three_switches newDeviceManager)) = 2.
Proof.
  split; [|split; [|split]].
  - unfold filterByCategories. cbn [devices].
    apply Forall2_map_self. intros [n d]. unfold filtered_as. cbn.
    repeat split; try reflexivity.
    + apply shouldShow_all.
    + apply shouldShow_selected. assumption.
    + apply shouldShow_selected. assumption.
  - unfold Demo.filterByCategories. cbn [devices].
    apply Forall2_map_self. intros [n d]. unfold filtered_as. cbn.
    repeat split; try reflexivity.
    + apply shouldShow_all.
    + apply shouldShow_selected. assumption.
    + apply shouldShow_selected. assumption.
  - intros c Hc. rewrite visible_count_filter. unfold getDevicesByCategory.
    apply filter_length_ext. intros d. unfold shouldShow, opt_eqb.
    cbn [arr_includes existsb].
    destruct (String.eqb "all" c) eqn:He.
    + apply String.eqb_eq in He. congruence.
    + destruct (type (info d)) as [t|]; cbn [arr_includes existsb orb]; [|reflexivity].
      now rewrite orb_false_r.
  - vm_compute. reflexivity.
Qed.

(** ** Labels and their devices *)

Lemma same_links_refl (sc : list Node) : same_links sc sc.
Proof. split; reflexivity. Qed.

Lemma same_links_trans (sc1 sc2 sc3 : list Node) :
  same_links sc1 sc2 -> same_links sc2 sc3 -> same_links sc1 sc3.
Proof.
  intros [Hl1 Hp1] [Hl2 Hp2]. split; [congruence|].
  intros j. now rewrite Hp2, Hp1.
Qed.

Lemma setEnabled_links (i : nat) (v : JsVal) (sc : list Node) :
  same_links sc (setEnabled i v sc).
Proof.
  unfold setEnabled. split; [apply length_alter|].
  intros j. rewrite list_lookup_alter. case_decide; [subst j|reflexivity].
  now destruct (sc !! i).
Qed.

Lemma filter_scene_links (categories : list string) (lbls : list (string * nat))
    (ds : list (string * Device)) (sc : list Node) :
  same_links sc (fold_left (filter_scene_step categories lbls) ds sc) /\
  same_links sc (fold_left (Demo.filter_scene_step categories lbls) ds sc).
Proof.
  revert sc. induction ds as [|[n d] ds IH]; intros sc; cbn [fold_left].
  - split; apply same_links_refl.
  - split.
    + eapply same_links_trans; [|apply IH].
      unfold filter_scene_step. destruct (map_get n lbls).
      * eapply same_links_trans; apply setEnabled_links.
      * apply setEnabled_links.
    + eapply same_links_trans; [|apply IH].
      unfold Demo.filter_scene_step. destruct (map_get n lbls).
      * eapply same_links_trans; apply setEnabled_links.
      * apply setEnabled_links.
Qed.

Lemma toggle_scene_links (v : JsVal) (lbls : list (string * nat)) (sc : list Node) :
  same_links sc (fold_left (fun sc e => setEnabled (snd e) v sc) lbls sc).
Proof.
  revert sc. induction lbls as [|e lbls IH]; intros sc; cbn [fold_left].
  - apply same_links_refl.
  - eapply same_links_trans; [apply setEnabled_links | apply IH].
Qed.

(** Changing enabled flags and visible flags keeps labels attached. *)
Lemma labels_attached_relink (s : DeviceManager) (sc' : list Node) (g : Device -> Device)
    (s' : DeviceManager) :
  labels_attached s ->
  same_links (scene s) sc' ->
  (forall d, mesh (g d) = mesh d) ->
  scene s' = sc' ->
  devices s' = map (fun e => (fst e, g (snd e))) (devices s) ->
  labels s' = labels s ->
  labels_attached s'.
Proof.
  intros Hatt [Hlen Hpar] Hg Hsc Hdev Hlab n l Hl.
  rewrite Hlab in Hl. destruct (Hatt n l Hl) as (d & nd & Hd & Hnd & Hp & Hm).
  specialize (Hpar l). rewrite Hnd in Hpar. cbn in Hpar.
  destruct (sc' !! l) as [nd'|] eqn:Hnd'; [|discriminate].
  exists (g d), nd'. rewrite Hsc, Hdev, map_get_map_values, Hd, Hg, Hlen.
  cbn in Hpar. repeat split; auto. congruence.
Qed.

Lemma map_id_values {V} (m : list (string * V)) :
  m = map (fun e => (fst e, snd e)) m.
Proof. induction m as [|[k v] m IH]; simpl; congruence. Qed.

Lemma filterByCategories_attached (categories : list string) (s : DeviceManager) :
  labels_attached s ->
  labels_attached (filterByCategories categories s) /\
  labels_attached (Demo.filterByCategories categories s).
Proof.
  intros Hatt. split.
  - eapply (labels_attached_relink s _
              (fun d => set_visible (shouldShow categories (type (info d))) d));
      eauto; try reflexivity.
    apply filter_scene_links.
  - eapply (labels_attached_relink s _
              (fun d => set_visible (shouldShow categories (category (info d))) d));
      eauto; try reflexivity.
    apply filter_scene_links.
Qed.

Lemma toggleLabels_attached (show : bool) (s : DeviceManager) :
  labels_attached s -> labels_attached (toggleLabels show s).
Proof.
  intros Hatt.
  eapply (labels_attached_relink s _ (fun d => d)); eauto; try reflexivity.
  - apply (toggle_scene_links (js_and show JFunction)).
  - cbn [toggleLabels devices]. apply map_id_values.
Qed.

Lemma run_ops_attached (ops : list Op) (s : DeviceManager) :
  labels_attached s ->
  labels_attached (run_ops ops s) /\ labels_attached (Demo.run_ops ops s).
Proof.
  intros Hatt. split.
  - revert s Hatt. induction ops as [|o ops IH]; intros s Hatt; [exact Hatt|].
    apply IH. destruct o; simpl.
    + now apply filterByCategories_attached.
    + now apply toggleLabels_attached.
  - revert s Hatt. induction ops as [|o ops IH]; intros s Hatt; [exact Hatt|].
    apply IH. destruct o; simpl.
    + now apply filterByCategories_attached.
    + now apply toggleLabels_attached.
Qed.

(** A label attached to a mesh whose own flag is off is not enabled. *)
Lemma attached_label_hidden (s : DeviceManager) (n : string) (l : nat) :
  labels_attached s ->
  map_get n (labels s) = Some l ->
  exists d, map_get n (devices s) = Some d /\
            (own_enabled (scene s) (mesh d) = false -> isEnabled (scene s) l = false).
Proof.
  intros Hatt Hl. destruct (Hatt n l Hl) as (d & nd & Hd & Hnd & Hp & Hm).
  exists d. split; [exact Hd|]. intros Hoff.
  unfold isEnabled. pose proof (lookup_lt_Some _ _ _ Hnd) as Hlt.
  destruct (length (scene s)) as [|k] eqn:Hk; [lia|]. clear Hlt.
  cbn [enabled_upto]. rewrite Hnd, Hp.
  apply andb_false_iff. right.
  unfold own_enabled in Hoff.
  destruct k; cbn [enabled_upto]; destruct (scene s !! mesh d) as [m|] eqn:Hmesh;
    try reflexivity.
  - now rewrite Hoff.
  - now rewrite Hoff.
Qed.

Lemma preload_frame `{Babylon} (paths : list (string * string)) (s : DeviceManager) :
  scene (fold_left preload_step paths s) = scene s /\
  devices (fold_left preload_step paths s) = devices s /\
  labels (fold_left preload_step paths s) = labels s /\
  deviceData (fold_left preload_step paths s) = deviceData s.
Proof.
  revert s. induction paths as [|[k p] paths IH]; intros s; cbn [fold_left]; [auto|].
  destruct (IH (preload_step s (k, p))) as (H1 & H2 & H3 & H4).
  rewrite H1, H2, H3, H4. auto.
Qed.

Lemma new_node_attached (s : DeviceManager) (nm : string) (meshNode : Node) (height : Q)
    (dev : Device) (s' : DeviceManager) :
  labels_attached s ->
  mesh dev = length (scene s) ->
  scene s' = (scene s ++ [meshNode; label_node (length (scene s)) nm height])%list ->
  devices s' = map_set nm dev (devices s) ->
  labels s' = map_set nm (S (length (scene s))) (labels s) ->
  labels_attached s'.
Proof.
  intros Hatt Hmesh Hsc Hdev Hlab n l Hl.
  rewrite Hlab in Hl. rewrite Hsc, Hdev, length_app. cbn [length].
  destruct (String.eqb nm n) eqn:He.
  - apply String.eqb_eq in He. subst n.
    rewrite map_get_set_eq in Hl. inversion Hl; subst l.
    exists dev, (label_node (length (scene s)) nm height).
    rewrite map_get_set_eq, Hmesh. repeat split; try lia.
    rewrite lookup_app_r by lia.
    now replace (S (length (scene s)) - length (scene s)) with 1 by lia.
  - apply String.eqb_neq in He.
    rewrite map_get_set_ne in Hl by congruence.
    destruct (Hatt n l Hl) as (d0 & nd & Hd & Hnd & Hp & Hm).
    exists d0, nd. rewrite map_get_set_ne by congruence.
    repeat split; auto; try lia.
    now apply lookup_app_l_Some.
Qed.

Lemma createDevice_attached `{Babylon} (s : DeviceManager) (d : DeviceInfo) :
  labels_attached s -> labels_attached (createDevice s d).
Proof.
  intros Hatt. unfold createDevice.
  destruct (buildVisual (select_model s d) d); [|exact Hatt].
  eapply new_node_attached; eauto; reflexivity.
Qed.

Lemma loadDevice_attached `{Babylon} (s : DeviceManager) (d : DeviceInfo) :
  labels_attached s -> labels_attached (Demo.loadDevice s d).
Proof.
  intros Hatt. unfold Demo.loadDevice.
  destruct (buildVisual (Procedural DemoBox) d); [|exact Hatt].
  eapply new_node_attached; eauto; reflexivity.
Qed.

Lemma fold_createDevice_attached `{Babylon} (batch : list DeviceInfo) (s : DeviceManager) :
  labels_attached s -> labels_attached (fold_left createDevice batch s).
Proof.
  revert s. induction batch as [|d batch IH]; intros s Hatt; [exact Hatt|].
  apply IH. now apply createDevice_attached.
Qed.

(** Whatever was loaded, every label is attached to its device. *)
Lemma loadDevices_attached `{Babylon} (batch : list DeviceInfo) (s : DeviceManager) :
  labels_attached s -> labels_attached (loadDevices batch s).
Proof.
  intros Hatt. unfold loadDevices. apply fold_createDevice_attached.
  unfold preloadModels.
  intros n l Hl.
  destruct (preload_frame modelPaths
              (mkDeviceManager (scene s) (devices s) (labels s) batch
                               (loadedModels s) (fetchLog s))) as (H1 & H2 & H3 & _).
  rewrite H3 in Hl. rewrite H1, H2. exact (Hatt n l Hl).
Qed.

Lemma new_manager_attached : labels_attached newDeviceManager.
Proof. intros n l Hl. discriminate. Qed.

(** C3. From any registry whose labels are attached to their devices (every
    loaded registry is), after any sequence of [filterByCategories] and
    [toggleLabels] calls, with any arguments, a label whose device's visual is
    disabled is not enabled: Babylon's [isEnabled()] of the label is false.
    The same holds for the demonstration manager. *)
Theorem label_hidden_with_device (s : DeviceManager) (ops : list Op) :
  labels_attached s ->
  (forall n l, map_get n (labels (run_ops ops s)) = Some l ->
     exists d, map_get n (devices (run_ops ops s)) = Some d /\
       (own_enabled (scene (run_ops ops s)) (mesh d) = false ->
        isEnabled (scene (run_ops ops s)) l = false)) /\
  (forall n l, map_get n (labels (Demo.run_ops ops s)) = Some l ->
     exists d, map_get n (devices (Demo.run_ops ops s)) = Some d /\
       (own_enabled (scene (Demo.run_ops ops s)) (mesh d) = false ->
        isEnabled (scene (Demo.run_ops ops s)) l = false)).
Proof.
  intros Hatt. destruct (run_ops_attached ops s Hatt) as [H1 H2].
  split; intros n l Hl; now apply attached_label_hidden.
Qed.

(** With two firewalls and three switches loaded, the filter on "firewall"
    followed by [toggleLabels(true)] leaves the label of switch [sw1] (node 5,
    on mesh 4) disabled. *)
Lemma label_hidden_with_device_witness :
  isEnabled
    (scene (run_ops [OpFilter ["firewall"]; OpToggleLabels true]
              (@loadDevices offline_host two_firewalls_three_switches newDeviceManager)))
    5 = false.
Proof.
  destruct (label_hidden_with_device
              (@loadDevices offline_host two_firewalls_three_switches newDeviceManager)
              [OpFilter ["firewall"]; OpToggleLabels true]
              (@loadDevices_attached offline_host _ _ new_manager_attached))
    as [Hmain _].
  destruct (Hmain "sw1" 5 eq_refl) as (d & Hd & Hoff).
  vm_compute in Hd. inversion Hd; subst d. apply Hoff. vm_compute. reflexivity.
Defined.

(** [toggleLabels(true)] itself stores a truthy flag in every label, whatever
    the state of the parent: the conjunct [label.parent.isEnabled] is a
    function object.  In the state of the witness the label of [sw1] has its
    own flag on while its mesh is off; it is the ancestor check of
    [isEnabled()] that keeps it hidden. *)
Lemma toggleLabels_own_flag :
  let s := run_ops [OpFilter ["firewall"]; OpToggleLabels true]
             (@loadDevices offline_host two_firewalls_three_switches newDeviceManager) in
  own_enabled (scene s) 5 = true /\ own_enabled (scene s) 4 = false /\
  isEnabled (scene s) 5 = false.
Proof. vm_compute. auto. Qed.

(** ** The model cache *)


Lemma fold_createDevice_cache `{Babylon} (batch : list DeviceInfo) (s : DeviceManager) :
  loadedModels (fold_left createDevice batch s) = loadedModels s /\
  fetchLog (fold_left createDevice batch s) = fetchLog s /\
  deviceData (fold_left createDevice batch s) = deviceData s.
Proof.
  revert s. induction batch as [|d batch IH]; intros s; cbn [fold_left]; [auto|].
  destruct (IH (createDevice s d)) as (H1 & H2 & H3).
  destruct (createDevice_cache s d) as (H4 & H5 & H6).
  rewrite H1, H2, H3. auto.
Qed.



Lemma modelPaths_keys_NoDup : NoDup (keys modelPaths).
Proof.
  cbn. repeat (apply NoDup_cons; split;
               [rewrite ?elem_of_cons, elem_of_nil; intuition discriminate|]).
  apply NoDup_nil_2.
Qed.



(** ** Bulk loading *)











(** On a page whose generic builder throws, the descriptor without a known
    type is skipped and the two around it are committed, in order. *)
Lemma loadDevices_best_effort_example :
  keys (devices (@loadDevices faulty_host
                   [plain "fw1" "firewall"; plain "odd" "printer"; plain "sw1" "switch"]
                   newDeviceManager))
  = ["fw1"; "sw1"].
Proof. vm_compute. reflexivity. Qed.

(** ** Names and visuals *)







(** ** Connections *)

(** The midpoint of a link lies halfway between the endpoints in [x] and [z],
    at height 0.1. *)
Lemma link_points_shape (p1 p2 : Vector3) :
  exists mid, link_points p1 p2 = [p1; mid; p2] /\
    (vx mid * 2 == vx p1 + vx p2)%Q /\
    (vz mid * 2 == vz p1 + vz p2)%Q /\
    vy mid = (1 # 10)%Q.
Proof.
  eexists. split; [reflexivity|]. cbn [vx vy vz].
  split; [|split]; [field | field | reflexivity].
Qed.

(** C9. [createConnection] appends one connection whose line runs through
    three points: the position of the first mesh, a midpoint whose [x] and
    [z] are the averages of the endpoints' and whose height is 0.1, and the
    position of the second mesh.  The points depend on the two positions
    only: any other call on meshes at the same positions, in any manager,
    yields the same points. *)
Theorem createConnection_polyline (m1 m2 : Node) (cm : ConnectionManager) :
  exists l mid,
    last_connection (createConnection m1 m2 cm) = Some (mkConnection m1 m2 (Some l) true) /\
    getConnectionCount (createConnection m1 m2 cm) = S (getConnectionCount cm) /\
    points l = [node_position m1; mid; node_position m2] /\
    (vx mid * 2 == vx (node_position m1) + vx (node_position m2))%Q /\
    (vz mid * 2 == vz (node_position m1) + vz (node_position m2))%Q /\
    vy mid = (1 # 10)%Q /\
    forall m1' m2' cm',
      node_position m1' = node_position m1 ->
      node_position m2' = node_position m2 ->
      exists l',
        last_connection (createConnection m1' m2' cm')
          = Some (mkConnection m1' m2' (Some l') true) /\
        points l' = points l.
Proof.
  destruct (link_points_shape (node_position m1) (node_position m2))
    as (mid & Hpts & Hx & Hz & Hy).
  eexists. exists mid. split.
  - unfold last_connection, createConnection. cbn [connections].
    rewrite last_snoc. reflexivity.
  - split; [|split; [exact Hpts|split; [exact Hx|split; [exact Hz|split; [exact Hy|]]]]].
    + unfold getConnectionCount, createConnection. cbn [connections].
      rewrite length_app. cbn. lia.
    + intros m1' m2' cm' H1 H2. eexists. split.
      * unfold last_connection, createConnection. cbn [connections].
        rewrite last_snoc. reflexivity.
      * cbn [points]. now rewrite H1, H2.
Qed.

(** A link between (0, 2, 0) and (-8, 1, 0) passes through (-4, 0.1, 0). *)
Lemma createConnection_example :
  option_map (fun c => option_map points (line c))
    (last_connection
       (createConnection
          (mkNode (Visual "a") "a" None (JBool true) (mkVector3 0 2 0))
          (mkNode (Visual "b") "b" None (JBool true) (mkVector3 (-8) 1 0))
          newConnectionManager))
  = Some (Some [mkVector3 0 2 0;
                mkVector3 ((0 + -8) / 2) (1 # 10) ((0 + 0) / 2);
                mkVector3 (-8) 1 0]).
Proof. reflexivity. Qed.

Lemma omap_link_cons (dm : DeviceManager) (p : ConnectionInfo) (pairs : list ConnectionInfo) :
  omap (link_of dm) (p :: pairs) =
  match link_of dm p with
  | Some c => c :: omap (link_of dm) pairs
  | None => omap (link_of dm) pairs
  end.
Proof. reflexivity. Qed.

Lemma link_of_cases (dm : DeviceManager) (p : ConnectionInfo) :
  (exists m1 m2, resolve dm (from p) = Some m1 /\ resolve dm (to p) = Some m2 /\
                 link_of dm p = Some (connection_of m1 m2) /\ valid_pair dm p = true) \/
  ((resolve dm (from p) = None \/ resolve dm (to p) = None) /\
   link_of dm p = None /\ valid_pair dm p = false).
Proof.
  unfold link_of, valid_pair.
  destruct (resolve dm (from p)) as [m1|]; [destruct (resolve dm (to p)) as [m2|]|].
  - left. eauto 6.
  - right. auto.
  - right. auto.
Qed.

Lemma loadConnections_connections (dm : DeviceManager) (pairs : list ConnectionInfo)
    (cm : ConnectionManager) :
  connections (loadConnections dm pairs cm) =
  (connections cm ++ omap (link_of dm) pairs)%list.
Proof.
  unfold loadConnections. revert cm.
  induction pairs as [|p pairs IH]; intros cm.
  - cbn. now rewrite app_nil_r.
  - cbn [fold_left]. rewrite IH, omap_link_cons.
    destruct (link_of_cases dm p) as [(m1 & m2 & H1 & H2 & Hl & _) | (Hno & Hl & _)].
    + rewrite H1, H2, Hl. cbn [createConnection connections].
      now rewrite <- app_assoc.
    + rewrite Hl. destruct Hno as [H1 | H2].
      * now rewrite H1.
      * rewrite H2. now destruct (resolve dm (from p)).
Qed.

Lemma omap_link_length (dm : DeviceManager) (pairs : list ConnectionInfo) :
  length (omap (link_of dm) pairs) =
  length (filter (fun p => valid_pair dm p = true) pairs).
Proof.
  induction pairs as [|p pairs IH]; [reflexivity|].
  rewrite omap_link_cons, filter_cons.
  destruct (link_of_cases dm p) as [(m1 & m2 & _ & _ & Hl & Hv) | (_ & Hl & Hv)];
    rewrite Hl, Hv.
  - rewrite decide_True by reflexivity. cbn [length]. now rewrite IH.
  - rewrite decide_False by discriminate. exact IH.
Qed.

Lemma createDevice_in_scene `{Babylon} (s : DeviceManager) (d : DeviceInfo) :
  devices_in_scene s -> devices_in_scene (createDevice s d).
Proof.
  intros Hin. unfold createDevice. destruct (buildVisual _ d); [|exact Hin].
  intros n dev. cbn [devices scene]. rewrite length_app. cbn [length].
  destruct (String.eqb (name d) n) eqn:He.
  - apply String.eqb_eq in He. subst n. rewrite map_get_set_eq.
    intros [= <-]. cbn. lia.
  - apply String.eqb_neq in He. rewrite map_get_set_ne by congruence.
    intros Hg. specialize (Hin n dev Hg). lia.
Qed.

(** In a loaded registry a name resolves exactly when it is registered. *)
Lemma loadDevices_in_scene `{Babylon} (batch : list DeviceInfo) (s : DeviceManager) :
  devices_in_scene s -> devices_in_scene (loadDevices batch s).
Proof.
  intros Hin. unfold loadDevices.
  assert (Hs0 : devices_in_scene
                  (preloadModels (mkDeviceManager (scene s) (devices s) (labels s) batch
                                                  (loadedModels s) (fetchLog s)))).
  { unfold preloadModels. intros n dev.
    destruct (preload_frame modelPaths
                (mkDeviceManager (scene s) (devices s) (labels s) batch
                                 (loadedModels s) (fetchLog s))) as (H1 & H2 & _).
    rewrite H1, H2. apply Hin. }
  revert Hs0. generalize (preloadModels (mkDeviceManager (scene s) (devices s) (labels s) batch
                                                         (loadedModels s) (fetchLog s))).
  induction batch as [|d batch IH]; intros s0 Hs0; [exact Hs0|].
  apply IH. now apply createDevice_in_scene.
Qed.

Lemma resolve_registered (dm : DeviceManager) (n : string) :
  devices_in_scene dm ->
  (is_Some (resolve dm n) <-> In n (keys (devices dm))).
Proof.
  intros Hin. rewrite <- map_get_is_Some. unfold resolve.
  destruct (map_get n (devices dm)) as [d|] eqn:Hd.
  - split; [eauto|]. intros _. apply lookup_lt_is_Some. eapply Hin; eauto.
  - split; intros [x Hx]; discriminate.
Qed.

(** C7.  [loadConnections] creates, in order, one connection for every pair
    whose two endpoint names resolve to a device and nothing for the others,
    so that the connection count grows by the number of valid pairs; in a
    registry whose devices have their meshes in the scene (every loaded
    registry), a pair is valid exactly when both names are registered. *)
Theorem loadConnections_skips_unknown (dm : DeviceManager) (pairs : list ConnectionInfo)
    (cm : ConnectionManager) :
  connections (loadConnections dm pairs cm) =
    (connections cm ++ omap (link_of dm) pairs)%list /\
  getConnectionCount (loadConnections dm pairs cm) =
    getConnectionCount cm + length (filter (fun p => valid_pair dm p = true) pairs) /\
  (forall p, link_of dm p = None <-> valid_pair dm p = false) /\
  (devices_in_scene dm ->
   forall p, valid_pair dm p = true <->
             In (from p) (keys (devices dm)) /\ In (to p) (keys (devices dm))).
Proof.
  split; [apply loadConnections_connections|]. split; [|split].
  - unfold getConnectionCount.
    now rewrite loadConnections_connections, length_app, omap_link_length.
  - intros p.
    destruct (link_of_cases dm p) as [(m1 & m2 & _ & _ & Hl & Hv) | (_ & Hl & Hv)];
      rewrite Hl, Hv; split; congruence.
  - intros Hin p.
    rewrite <- !(resolve_registered dm _ Hin). unfold valid_pair.
    destruct (resolve dm (from p)), (resolve dm (to p)); split;
      try discriminate; try (intros [[x Hx] [y Hy]]; discriminate); eauto.
Qed.

(** One pair of three names an unknown device: two connections are created. *)
Lemma loadConnections_example :
  getConnectionCount
    (loadConnections
       (@loadDevices offline_host two_firewalls_three_switches newDeviceManager)
       [ mkConnectionInfo "fw1" "sw1" None;
         mkConnectionInfo "fw1" "nowhere" None;
         mkConnectionInfo "sw1" "sw2" None ]
       newConnectionManager) = 2.
Proof. vm_compute. reflexivity. Qed.

(** ** Remarks *)

(** The cache entry of a key is overwritten by the next [loadDevices]: on a
    page that recovers, the failure mark of the first call gives way to the
    model imported by the second. *)
Lemma cache_overwritten_by_next_load :
  loadedModels (@load_all recovering_host [[]]) !! "firewall" = Some None /\
  loadedModels (@load_all recovering_host [[]; []]) !! "firewall"
    = Some (Some (mkTemplate "assets/models/fortigate-61e.glb" 8)).
Proof. split; vm_compute; reflexivity. Qed.

(** * Further properties *)

(** ** Sequences of [setEnabled] calls *)

Lemma setEnabled_lookup (i : nat) (v : JsVal) (sc : list Node) (j : nat) :
  setEnabled i v sc !! j =
  if Nat.eqb i j then with_enabled v <$> (sc !! j) else sc !! j.
Proof.
  unfold setEnabled. rewrite list_lookup_alter.
  destruct (Nat.eqb i j) eqn:He.
  - apply Nat.eqb_eq in He. subst j. rewrite decide_True by reflexivity. reflexivity.
  - apply Nat.eqb_neq in He. now rewrite decide_False.
Qed.

Lemma apply_writes_cons (w : nat * JsVal) (ws : list (nat * JsVal)) (sc : list Node) :
  apply_writes (w :: ws) sc = apply_writes ws (setEnabled (fst w) (snd w) sc).
Proof. reflexivity. Qed.

Lemma apply_writes_app (ws1 ws2 : list (nat * JsVal)) (sc : list Node) :
  apply_writes (ws1 ++ ws2) sc = apply_writes ws2 (apply_writes ws1 sc).
Proof. unfold apply_writes. apply fold_left_app. Qed.

(** After a sequence of calls a node carries the value of the last call that
    addressed it, and is untouched when none did. *)
Lemma apply_writes_lookup (ws : list (nat * JsVal)) (sc : list Node) (j : nat) :
  apply_writes ws sc !! j =
  match last_write j ws with
  | Some v => with_enabled v <$> (sc !! j)
  | None => sc !! j
  end.
Proof.
  revert sc. induction ws as [|[i v] ws IH]; intros sc; [reflexivity|].
  rewrite apply_writes_cons, IH. cbn [fst snd last_write].
  rewrite setEnabled_lookup.
  destruct (last_write j ws) as [v'|]; destruct (Nat.eqb i j); try reflexivity.
  now destruct (sc !! j).
Qed.

Lemma apply_writes_length (ws : list (nat * JsVal)) (sc : list Node) :
  length (apply_writes ws sc) = length sc.
Proof.
  revert sc. induction ws as [|[i v] ws IH]; intros sc; [reflexivity|].
  rewrite apply_writes_cons, IH. unfold setEnabled. apply length_alter.
Qed.

Lemma last_write_app (j : nat) (ws1 ws2 : list (nat * JsVal)) :
  last_write j (ws1 ++ ws2) =
  match last_write j ws2 with
  | Some v => Some v
  | None => last_write j ws1
  end.
Proof.
  induction ws1 as [|[i v] ws1 IH]; cbn [app last_write].
  - now destruct (last_write j ws2).
  - rewrite IH. now destruct (last_write j ws2).
Qed.

Lemma last_write_None (j : nat) (ws : list (nat * JsVal)) :
  last_write j ws = None <-> ~ In j (map fst ws).
Proof.
  induction ws as [|[i v] ws IH]; cbn [last_write map fst In]; [tauto|].
  destruct (last_write j ws) as [v'|].
  - split; [discriminate|]. intros Hn. apply IH. tauto.
  - destruct (Nat.eqb i j) eqn:He.
    + apply Nat.eqb_eq in He. split; [discriminate | tauto].
    + apply Nat.eqb_neq in He. split; [tauto | reflexivity].
Qed.

(** Calls that address only nodes addressed again later leave no trace. *)
Lemma apply_writes_absorb (ws ws' : list (nat * JsVal)) (sc : list Node) :
  (forall j, In j (map fst ws') -> In j (map fst ws)) ->
  apply_writes ws (apply_writes ws' sc) = apply_writes ws sc.
Proof.
  intros Hsub. apply list_eq. intros j. rewrite !apply_writes_lookup.
  destruct (last_write j ws) as [v|] eqn:Hw.
  - destruct (last_write j ws') as [v'|]; [|reflexivity].
    now destruct (sc !! j).
  - destruct (last_write j ws') as [v'|] eqn:Hw'; [|reflexivity].
    exfalso. apply last_write_None in Hw. apply Hw, Hsub.
    destruct (in_dec Nat.eq_dec j (map fst ws')) as [Hin|Hnin]; [exact Hin|].
    apply last_write_None in Hnin. congruence.
Qed.

Lemma filter_writes_cons (key : DeviceInfo -> option string) (lv : bool -> JsVal)
    (categories : list string) (lbls : list (string * nat))
    (e : string * Device) (ds : list (string * Device)) :
  filter_writes key lv categories lbls (e :: ds) =
  (filter_step_writes key lv categories lbls e ++ filter_writes key lv categories lbls ds)%list.
Proof. reflexivity. Qed.

Lemma filter_scene_as_writes (categories : list string) (lbls : list (string * nat))
    (ds : list (string * Device)) (sc : list Node) :
  fold_left (filter_scene_step categories lbls) ds sc =
  apply_writes (filter_writes type (fun b => js_and b JFunction) categories lbls ds) sc.
Proof.
  revert sc. induction ds as [|[n d] ds IH]; intros sc; [reflexivity|].
  cbn [fold_left]. rewrite IH, filter_writes_cons, apply_writes_app. f_equal.
  unfold filter_scene_step, filter_step_writes. cbn [fst snd].
  now destruct (map_get n lbls).
Qed.

Lemma demo_filter_scene_as_writes (categories : list string) (lbls : list (string * nat))
    (ds : list (string * Device)) (sc : list Node) :
  fold_left (Demo.filter_scene_step categories lbls) ds sc =
  apply_writes (filter_writes category JBool categories lbls ds) sc.
Proof.
  revert sc. induction ds as [|[n d] ds IH]; intros sc; [reflexivity|].
  cbn [fold_left]. rewrite IH, filter_writes_cons, apply_writes_app. f_equal.
  unfold Demo.filter_scene_step, filter_step_writes. cbn [fst snd].
  now destruct (map_get n lbls).
Qed.

Lemma toggle_scene_as_writes (show : bool) (lbls : list (string * nat)) (sc : list Node) :
  fold_left (fun sc e => setEnabled (snd e) (js_and show JFunction) sc) lbls sc =
  apply_writes (toggle_writes show lbls) sc.
Proof.
  revert sc. induction lbls as [|e lbls IH]; intros sc; [reflexivity|].
  cbn [fold_left toggle_writes map]. rewrite IH. reflexivity.
Qed.

(** The nodes a filter addresses: every mesh of the registry and the label
    of every registered name. *)
Lemma filter_writes_indices (key : DeviceInfo -> option string) (lv : bool -> JsVal)
    (categories : list string) (lbls : list (string * nat)) (ds : list (string * Device))
    (j : nat) :
  In j (map fst (filter_writes key lv categories lbls ds)) <->
  exists n d, In (n, d) ds /\ (j = mesh d \/ map_get n lbls = Some j).
Proof.
  induction ds as [|[n d] ds IH].
  - cbn. split; [intros [] | intros (n & d & [] & _)].
  - rewrite filter_writes_cons, map_app, in_app_iff, IH.
    unfold filter_step_writes. cbn [fst snd]. split.
    + intros [Hhere | (n' & d' & Hin & Hj)].
      * exists n, d. split; [left; reflexivity|].
        destruct (map_get n lbls) as [l|]; cbn in Hhere.
        -- destruct Hhere as [<-|[<-|[]]]; auto.
        -- destruct Hhere as [<-|[]]; auto.
      * exists n', d'. split; [right; assumption | assumption].
    + intros (n' & d' & [Heq|Hin] & Hj).
      * inversion Heq; subst n' d'. left.
        destruct Hj as [->|Hl].
        -- destruct (map_get n lbls); cbn; auto.
        -- rewrite Hl. cbn. auto.
      * right. eauto.
Qed.

Lemma filter_writes_revisible (key : DeviceInfo -> option string) (lv : bool -> JsVal)
    (categories : list string) (lbls : list (string * nat)) (g : Device -> Device)
    (ds : list (string * Device)) :
  (forall d, mesh (g d) = mesh d /\ info (g d) = info d) ->
  filter_writes key lv categories lbls (map (fun e => (fst e, g (snd e))) ds) =
  filter_writes key lv categories lbls ds.
Proof.
  intros Hg. induction ds as [|[n d] ds IH]; [reflexivity|].
  cbn [map]. rewrite !filter_writes_cons, IH. f_equal.
  unfold filter_step_writes. cbn [fst snd].
  destruct (Hg d) as [-> ->]. reflexivity.
Qed.

Lemma In_map_get {V} (k : string) (v : V) (m : list (string * V)) :
  NoDup (keys m) -> In (k, v) m -> map_get k m = Some v.
Proof.
  induction m as [|[k' v'] m IH]; cbn [keys map fst]; [intros _ []|].
  intros Hnd [Heq|Hin]; apply NoDup_cons in Hnd; destruct Hnd as [Hk Hnd]; cbn [map_get].
  - inversion Heq; subst. now rewrite String.eqb_refl.
  - destruct (String.eqb k' k) eqn:He.
    + apply String.eqb_eq in He. subst k'. exfalso. apply Hk.
      apply list_elem_of_In. apply in_map_iff. exists (k, v). auto.
    + auto.
Qed.

(** ** A filter does not depend on earlier filters or label switches *)

Lemma filter_after_filter (c c' : list string) (s : DeviceManager) :
  filterByCategories c (filterByCategories c' s) = filterByCategories c s /\
  Demo.filterByCategories c (Demo.filterByCategories c' s) = Demo.filterByCategories c s.
Proof.
  split.
  - unfold filterByCategories.
    cbn [scene devices labels deviceData loadedModels fetchLog]. f_equal.
    + rewrite !filter_scene_as_writes.
      rewrite (filter_writes_revisible type _ c (labels s)
                 (fun d => set_visible (shouldShow c' (type (info d))) d))
        by (intros d; split; reflexivity).
      apply apply_writes_absorb. intros j.
      rewrite !filter_writes_indices. tauto.
    + rewrite map_map. apply map_ext. intros [n d]. reflexivity.
  - unfold Demo.filterByCategories.
    cbn [scene devices labels deviceData loadedModels fetchLog]. f_equal.
    + rewrite !demo_filter_scene_as_writes.
      rewrite (filter_writes_revisible category _ c (labels s)
                 (fun d => set_visible (shouldShow c' (category (info d))) d))
        by (intros d; split; reflexivity).
      apply apply_writes_absorb. intros j.
      rewrite !filter_writes_indices. tauto.
    + rewrite map_map. apply map_ext. intros [n d]. reflexivity.
Qed.

Lemma toggle_writes_covered (key : DeviceInfo -> option string) (lv : bool -> JsVal)
    (c : list string) (b : bool) (s : DeviceManager) (j : nat) :
  labels_attached s -> NoDup (keys (labels s)) ->
  In j (map fst (toggle_writes b (labels s))) ->
  In j (map fst (filter_writes key lv c (labels s) (devices s))).
Proof.
  intros Hatt Hnd Hin. unfold toggle_writes in Hin. rewrite map_map in Hin.
  apply in_map_iff in Hin. destruct Hin as ([n l] & Hj & Hin). cbn in Hj. subst l.
  pose proof (In_map_get n j (labels s) Hnd Hin) as Hget.
  destruct (Hatt n j Hget) as (d & nd & Hd & _).
  apply filter_writes_indices. exists n, d. split; [|right; exact Hget].
  now apply map_get_Some_In.
Qed.

Lemma filter_after_toggle (c : list string) (b : bool) (s : DeviceManager) :
  labels_attached s -> NoDup (keys (labels s)) ->
  filterByCategories c (toggleLabels b s) = filterByCategories c s /\
  Demo.filterByCategories c (toggleLabels b s) = Demo.filterByCategories c s.
Proof.
  intros Hatt Hnd. split.
  - unfold filterByCategories, toggleLabels.
    cbn [scene devices labels deviceData loadedModels fetchLog]. f_equal.
    rewrite !filter_scene_as_writes, toggle_scene_as_writes.
    apply apply_writes_absorb. intros j. now apply toggle_writes_covered.
  - unfold Demo.filterByCategories, toggleLabels.
    cbn [scene devices labels deviceData loadedModels fetchLog]. f_equal.
    rewrite !demo_filter_scene_as_writes, toggle_scene_as_writes.
    apply apply_writes_absorb. intros j. now apply toggle_writes_covered.
Qed.

Lemma run_ops_labels (ops : list Op) (s : DeviceManager) :
  labels (run_ops ops s) = labels s /\ labels (Demo.run_ops ops s) = labels s.
Proof.
  split.
  - revert s. induction ops as [|o ops IH]; intros s; [reflexivity|].
    cbn [run_ops fold_left]. fold (run_ops ops (run_op s o)). rewrite IH.
    now destruct o.
  - revert s. induction ops as [|o ops IH]; intros s; [reflexivity|].
    cbn [Demo.run_ops fold_left]. fold (Demo.run_ops ops (Demo.run_op s o)). rewrite IH.
    now destruct o.
Qed.

(** X1. A filter decides alone: whatever filters and label switches were
    applied before, [filterByCategories(c)] ends in the state it reaches
    when applied directly.  In particular filtering twice with the same
    selection changes nothing the second time, and a filter brings back the
    labels that [toggleLabels(false)] had switched off. *)
Theorem filter_overrides_history (s : DeviceManager) (ops : list Op) (c : list string) :
  labels_attached s -> NoDup (keys (labels s)) ->
  filterByCategories c (run_ops ops s) = filterByCategories c s /\
  Demo.filterByCategories c (Demo.run_ops ops s) = Demo.filterByCategories c s.
Proof.
  intros Hatt Hnd. split.
  - revert s Hatt Hnd. induction ops as [|o ops IH]; intros s Hatt Hnd; [reflexivity|].
    cbn [run_ops fold_left]. fold (run_ops ops (run_op s o)).
    destruct o as [c'|b]; cbn [run_op].
    + rewrite IH.
      * apply filter_after_filter.
      * now apply filterByCategories_attached.
      * exact Hnd.
    + rewrite IH.
      * now apply filter_after_toggle.
      * now apply toggleLabels_attached.
      * exact Hnd.
  - revert s Hatt Hnd. induction ops as [|o ops IH]; intros s Hatt Hnd; [reflexivity|].
    cbn [Demo.run_ops fold_left]. fold (Demo.run_ops ops (Demo.run_op s o)).
    destruct o as [c'|b]; cbn [Demo.run_op].
    + rewrite IH.
      * apply filter_after_filter.
      * now apply filterByCategories_attached.
      * exact Hnd.
    + rewrite IH.
      * now apply filter_after_toggle.
      * now apply toggleLabels_attached.
      * exact Hnd.
Qed.

(** ** Registries the managers build *)

Lemma keys_map_values {V W} (g : V -> W) (m : list (string * V)) :
  keys (map (fun e => (fst e, g (snd e))) m) = keys m.
Proof. unfold keys. rewrite map_map. apply map_ext. now intros [k v]. Qed.

Lemma new_manager_wf : registry_wf newDeviceManager.
Proof.
  repeat split; try apply NoDup_nil_2; intros n x Hx; discriminate.
Qed.

Lemma new_node_wf (s : DeviceManager) (nm vname : string) (p : Vector3) (height : Q)
    (dev : Device) (s' : DeviceManager) :
  registry_wf s ->
  mesh dev = length (scene s) ->
  scene s' = (scene s ++ [mkNode (Visual nm) vname None (JBool true) p;
                          label_node (length (scene s)) nm height])%list ->
  devices s' = map_set nm dev (devices s) ->
  labels s' = map_set nm (S (length (scene s))) (labels s) ->
  registry_wf s'.
Proof.
  intros (Hnd & Hnl & Hdev & Hlab) Hmesh Hsc Hds Hls.
  unfold registry_wf. rewrite Hsc, Hds, Hls.
  split; [now apply NoDup_keys_map_set|]. split; [now apply NoDup_keys_map_set|]. split.
  - intros n d Hd. destruct (String.eqb nm n) eqn:He.
    + apply String.eqb_eq in He. subst n. rewrite map_get_set_eq in Hd.
      inversion Hd; subst d. rewrite Hmesh, list_lookup_middle by reflexivity. eauto.
    + apply String.eqb_neq in He. rewrite map_get_set_ne in Hd by congruence.
      destruct (Hdev n d Hd) as (nd & Hnd' & Hk & Hp).
      exists nd. split; [now apply lookup_app_l_Some | auto].
  - intros n l Hl. destruct (String.eqb nm n) eqn:He.
    + apply String.eqb_eq in He. subst n. rewrite map_get_set_eq in Hl.
      inversion Hl; subst l.
      exists (label_node (length (scene s)) nm height), dev.
      rewrite map_get_set_eq, Hmesh. repeat split.
      rewrite lookup_app_r by lia.
      now replace (S (length (scene s)) - length (scene s)) with 1 by lia.
    + apply String.eqb_neq in He. rewrite map_get_set_ne in Hl by congruence.
      destruct (Hlab n l Hl) as (nd & d & Hnd' & Hk & Hd & Hp).
      exists nd, d. rewrite map_get_set_ne by congruence.
      split; [now apply lookup_app_l_Some | auto].
Qed.

Lemma createDevice_wf `{Babylon} (s : DeviceManager) (d : DeviceInfo) :
  registry_wf s -> registry_wf (createDevice s d) /\ registry_wf (Demo.loadDevice s d).
Proof.
  intros Hwf. split.
  - unfold createDevice. destruct (buildVisual (select_model s d) d); [|exact Hwf].
    eapply new_node_wf; eauto; reflexivity.
  - unfold Demo.loadDevice. destruct (buildVisual (Procedural DemoBox) d); [|exact Hwf].
    eapply new_node_wf; eauto; reflexivity.
Qed.

Lemma loadDevices_wf `{Babylon} (batch : list DeviceInfo) (s : DeviceManager) :
  registry_wf s -> registry_wf (loadDevices batch s).
Proof.
  intros Hwf. unfold loadDevices.
  assert (Hs0 : registry_wf
                  (preloadModels (mkDeviceManager (scene s) (devices s) (labels s) batch
                                                  (loadedModels s) (fetchLog s)))).
  { unfold preloadModels, registry_wf.
    destruct (preload_frame modelPaths
                (mkDeviceManager (scene s) (devices s) (labels s) batch
                                 (loadedModels s) (fetchLog s))) as (H1 & H2 & H3 & _).
    rewrite H1, H2, H3. exact Hwf. }
  revert Hs0. generalize (preloadModels (mkDeviceManager (scene s) (devices s) (labels s) batch
                                                         (loadedModels s) (fetchLog s))).
  induction batch as [|d batch IH]; intros s0 Hs0; [exact Hs0|].
  apply IH. now apply createDevice_wf.
Qed.

Lemma fold_loadDevice_wf `{Babylon} (models : list DeviceInfo) (s : DeviceManager) :
  registry_wf s -> registry_wf (fold_left Demo.loadDevice models s).
Proof.
  revert s. induction models as [|d models IH]; intros s Hwf; [exact Hwf|].
  apply IH. now apply createDevice_wf.
Qed.

(** Flag changes keep a registry well formed. *)
Lemma rewrite_flags_wf (s s' : DeviceManager) (ws : list (nat * JsVal)) (g : Device -> Device) :
  registry_wf s ->
  scene s' = apply_writes ws (scene s) ->
  devices s' = map (fun e => (fst e, g (snd e))) (devices s) ->
  (forall d, mesh (g d) = mesh d) ->
  labels s' = labels s ->
  registry_wf s'.
Proof.
  intros (Hnd & Hnl & Hdev & Hlab) Hsc Hds Hg Hls.
  unfold registry_wf. rewrite Hsc, Hds, Hls, keys_map_values.
  split; [exact Hnd|]. split; [exact Hnl|]. split.
  - intros n d' Hd'. rewrite map_get_map_values in Hd'.
    destruct (map_get n (devices s)) as [d|] eqn:Hd; [|discriminate].
    inversion Hd'; subst d'. rewrite Hg.
    destruct (Hdev n d Hd) as (nd & Hnd' & Hk & Hp).
    rewrite apply_writes_lookup, Hnd'.
    destruct (last_write (mesh d) ws); cbn; eauto.
  - intros n l Hl.
    destruct (Hlab n l Hl) as (nd & d & Hnd' & Hk & Hd & Hp).
    rewrite apply_writes_lookup, Hnd', map_get_map_values, Hd. cbn [option_map].
    destruct (last_write l ws) as [v|]; cbn.
    + exists (with_enabled v nd), (g d). rewrite Hg. auto.
    + exists nd, (g d). rewrite Hg. auto.
Qed.

Lemma run_op_wf (o : Op) (s : DeviceManager) :
  registry_wf s -> registry_wf (run_op s o) /\ registry_wf (Demo.run_op s o).
Proof.
  intros Hwf. destruct o as [c|b]; cbn [run_op Demo.run_op]; split.
  - apply (rewrite_flags_wf s _
             (filter_writes type (fun b => js_and b JFunction) c (labels s) (devices s))
             (fun d => set_visible (shouldShow c (type (info d))) d) Hwf);
      [apply filter_scene_as_writes | reflexivity | reflexivity | reflexivity].
  - apply (rewrite_flags_wf s _
             (filter_writes category JBool c (labels s) (devices s))
             (fun d => set_visible (shouldShow c (category (info d))) d) Hwf);
      [apply demo_filter_scene_as_writes | reflexivity | reflexivity | reflexivity].
  - apply (rewrite_flags_wf s _ (toggle_writes b (labels s)) (fun d => d) Hwf);
      [apply toggle_scene_as_writes | apply map_id_values | reflexivity | reflexivity].
  - apply (rewrite_flags_wf s _ (toggle_writes b (labels s)) (fun d => d) Hwf);
      [apply toggle_scene_as_writes | apply map_id_values | reflexivity | reflexivity].
Qed.

Lemma run_ops_wf (ops : list Op) (s : DeviceManager) :
  registry_wf s -> registry_wf (run_ops ops s) /\ registry_wf (Demo.run_ops ops s).
Proof.
  intros Hwf. split.
  - revert s Hwf. induction ops as [|o ops IH]; intros s Hwf; [exact Hwf|].
    apply IH. now apply run_op_wf.
  - revert s Hwf. induction ops as [|o ops IH]; intros s Hwf; [exact Hwf|].
    apply IH. now apply run_op_wf.
Qed.

Lemma wf_attached (s : DeviceManager) : registry_wf s -> labels_attached s.
Proof.
  intros (_ & _ & Hdev & Hlab) n l Hl.
  destruct (Hlab n l Hl) as (nd & d & Hnd & _ & Hd & Hp).
  exists d, nd. repeat split; auto.
  destruct (Hdev n d Hd) as (md & Hmd & _). now apply lookup_lt_Some in Hmd.
Qed.

(** With two firewalls and three switches loaded: after the labels were
    switched off and the switches filtered, the filter on "all" gives what
    it gives on the freshly loaded registry. *)
Lemma filter_overrides_history_witness :
  filterByCategories ["all"]
    (run_ops [OpToggleLabels false; OpFilter ["switch"]]
       (@loadDevices offline_host two_firewalls_three_switches newDeviceManager))
  = filterByCategories ["all"]
      (@loadDevices offline_host two_firewalls_three_switches newDeviceManager).
Proof.
  pose proof (@loadDevices_wf offline_host two_firewalls_three_switches _ new_manager_wf)
    as Hwf.
  exact (proj1 (filter_overrides_history
                  (@loadDevices offline_host two_firewalls_three_switches newDeviceManager)
                  [OpToggleLabels false; OpFilter ["switch"]] ["all"]
                  (wf_attached _ Hwf) (proj1 (proj2 Hwf)))).
Defined.

(** ** What a filter and a label switch leave in the scene *)

Lemma last_write_In (j : nat) (v : JsVal) (ws : list (nat * JsVal)) :
  last_write j ws = Some v -> In (j, v) ws.
Proof.
  induction ws as [|[i v0] ws IH]; cbn [last_write]; [discriminate|].
  destruct (last_write j ws) as [v'|].
  - intros [= ->]. right. now apply IH.
  - destruct (Nat.eqb i j) eqn:He; [|discriminate].
    apply Nat.eqb_eq in He. intros [= ->]. left. now subst.
Qed.

Lemma last_write_agree (j : nat) (v : JsVal) (ws : list (nat * JsVal)) :
  In (j, v) ws -> (forall v', In (j, v') ws -> v' = v) -> last_write j ws = Some v.
Proof.
  intros Hin Hall. destruct (last_write j ws) as [v'|] eqn:Hl.
  - apply last_write_In in Hl. now rewrite (Hall v' Hl).
  - exfalso. apply last_write_None in Hl. apply Hl.
    apply in_map_iff. now exists (j, v).
Qed.

(** A plane whose parent is a parentless mesh is enabled exactly when both
    own flags are on. *)
Lemma isEnabled_label (sc : list Node) (l m : nat) (nl nm : Node) :
  sc !! l = Some nl -> node_parent nl = Some m ->
  sc !! m = Some nm -> node_parent nm = None ->
  isEnabled sc l = truthy (node_enabled nl) && truthy (node_enabled nm).
Proof.
  intros Hl Hpl Hm Hpm. unfold isEnabled.
  pose proof (lookup_lt_Some _ _ _ Hl) as Hlt.
  destruct (length sc) as [|k]; [lia|].
  cbn [enabled_upto]. rewrite Hl, Hpl. f_equal.
  destruct k; cbn [enabled_upto]; rewrite Hm, Hpm; apply andb_true_r.
Qed.

Lemma filter_writes_In (key : DeviceInfo -> option string) (lv : bool -> JsVal)
    (c : list string) (lbls : list (string * nat)) (ds : list (string * Device))
    (j : nat) (v : JsVal) :
  In (j, v) (filter_writes key lv c lbls ds) <->
  exists n d, In (n, d) ds /\
    ((j = mesh d /\ v = JBool (shouldShow c (key (info d)))) \/
     (map_get n lbls = Some j /\ v = lv (shouldShow c (key (info d))))).
Proof.
  unfold filter_writes. rewrite in_flat_map. split.
  - intros ([n d] & Hin & Hw). exists n, d. split; [exact Hin|].
    unfold filter_step_writes in Hw. cbn [fst snd] in Hw.
    destruct Hw as [Hw|Hw].
    + inversion Hw. auto.
    + destruct (map_get n lbls) as [l|]; [|destruct Hw].
      destruct Hw as [Hw|[]]. inversion Hw. auto.
  - intros (n & d & Hin & Hcase). exists (n, d). split; [exact Hin|].
    unfold filter_step_writes. cbn [fst snd].
    destruct Hcase as [[-> ->] | [Hl ->]]; [left; reflexivity|].
    right. rewrite Hl. left. reflexivity.
Qed.

(** In a well-formed registry the last call of a filter on a device's mesh
    and on its label is the one of the device's own turn. *)
Lemma filter_last_writes (key : DeviceInfo -> option string) (lv : bool -> JsVal)
    (c : list string) (s : DeviceManager) (n : string) (d : Device) :
  registry_wf s -> map_get n (devices s) = Some d ->
  last_write (mesh d) (filter_writes key lv c (labels s) (devices s))
    = Some (JBool (shouldShow c (key (info d)))) /\
  forall l, map_get n (labels s) = Some l ->
    last_write l (filter_writes key lv c (labels s) (devices s))
      = Some (lv (shouldShow c (key (info d)))).
Proof.
  intros (Hnd & Hnl & Hdev & Hlab) Hd.
  destruct (Hdev n d Hd) as (nd & Hnode & Hkind & Hpar).
  pose proof (map_get_Some_In _ _ _ Hd) as Hin.
  split.
  - apply last_write_agree.
    + apply filter_writes_In. exists n, d. auto.
    + intros v' Hv'. apply filter_writes_In in Hv'.
      destruct Hv' as (n' & d' & Hin' & [[Hm ->] | [Hl _]]).
      * pose proof (In_map_get _ _ _ Hnd Hin') as Hd'.
        destruct (Hdev n' d' Hd') as (nd' & Hnode' & Hkind' & _).
        rewrite <- Hm, Hnode in Hnode'. inversion Hnode'; subst nd'.
        rewrite Hkind in Hkind'. inversion Hkind'; subst n'.
        rewrite Hd in Hd'. now inversion Hd'.
      * destruct (Hlab n' (mesh d) Hl) as (nl & _ & Hnl' & Hkl & _).
        rewrite Hnode in Hnl'. inversion Hnl'; subst nl. congruence.
  - intros l Hl.
    destruct (Hlab n l Hl) as (nl & d0 & Hnl' & Hkl & _).
    apply last_write_agree.
    + apply filter_writes_In. exists n, d. auto.
    + intros v' Hv'. apply filter_writes_In in Hv'.
      destruct Hv' as (n' & d' & Hin' & [[Hm _] | [Hl' ->]]).
      * pose proof (In_map_get _ _ _ Hnd Hin') as Hd'.
        destruct (Hdev n' d' Hd') as (nd' & Hnode' & Hkind' & _).
        rewrite <- Hm, Hnl' in Hnode'. inversion Hnode'; subst nd'. congruence.
      * destruct (Hlab n' l Hl') as (nl' & _ & Hnl'' & Hkl' & _).
        rewrite Hnl' in Hnl''. inversion Hnl''; subst nl'.
        rewrite Hkl in Hkl'. inversion Hkl'; subst n'.
        pose proof (In_map_get _ _ _ Hnd Hin') as Hd'.
        rewrite Hd in Hd'. now inversion Hd'.
Qed.

Lemma filter_scene_result (key : DeviceInfo -> option string) (lv : bool -> JsVal)
    (c : list string) (s : DeviceManager) (n : string) (d : Device) :
  (forall b, truthy (lv b) = b) ->
  registry_wf s -> map_get n (devices s) = Some d ->
  let sc' := apply_writes (filter_writes key lv c (labels s) (devices s)) (scene s) in
  own_enabled sc' (mesh d) = shouldShow c (key (info d)) /\
  forall l, map_get n (labels s) = Some l ->
    own_enabled sc' l = shouldShow c (key (info d)) /\
    isEnabled sc' l = shouldShow c (key (info d)).
Proof.
  intros Hlv Hwf Hd sc'.
  destruct (filter_last_writes key lv c s n d Hwf Hd) as [Hwm Hwl].
  destruct Hwf as (Hnd & Hnl & Hdev & Hlab).
  destruct (Hdev n d Hd) as (nd & Hnode & Hkind & Hpar).
  assert (Hm' : sc' !! mesh d = Some (with_enabled (JBool (shouldShow c (key (info d)))) nd)).
  { unfold sc'. now rewrite apply_writes_lookup, Hwm, Hnode. }
  split.
  - unfold own_enabled. now rewrite Hm'.
  - intros l Hl.
    destruct (Hlab n l Hl) as (nl & d0 & Hnl' & Hkl & Hd0 & Hpl).
    rewrite Hd in Hd0. inversion Hd0; subst d0.
    assert (Hl' : sc' !! l = Some (with_enabled (lv (shouldShow c (key (info d)))) nl)).
    { unfold sc'. now rewrite apply_writes_lookup, (Hwl l Hl), Hnl'. }
    split.
    + unfold own_enabled. rewrite Hl'. apply Hlv.
    + rewrite (isEnabled_label sc' l (mesh d) _ _ Hl' Hpl Hm' Hpar).
      cbn. rewrite Hlv. apply andb_diag.
Qed.

(** X2. In a registry built by the managers, [filterByCategories(c)] brings
    the three views of a device into line: its [visible] flag, the enabled
    flag of its mesh and the enabledness of its label all equal "the
    selection contains all or the device's type" (its category, for the
    demonstration manager). *)
Theorem filter_reaches_scene (c : list string) (s : DeviceManager) (n : string) (d : Device) :
  registry_wf s -> map_get n (devices s) = Some d ->
  (map_get n (devices (filterByCategories c s))
     = Some (mkDevice (mesh d) (info d) (shouldShow c (type (info d)))) /\
   own_enabled (scene (filterByCategories c s)) (mesh d) = shouldShow c (type (info d)) /\
   forall l, map_get n (labels s) = Some l ->
     isEnabled (scene (filterByCategories c s)) l = shouldShow c (type (info d))) /\
  (map_get n (devices (Demo.filterByCategories c s))
     = Some (mkDevice (mesh d) (info d) (shouldShow c (category (info d)))) /\
   own_enabled (scene (Demo.filterByCategories c s)) (mesh d)
     = shouldShow c (category (info d)) /\
   forall l, map_get n (labels s) = Some l ->
     isEnabled (scene (Demo.filterByCategories c s)) l = shouldShow c (category (info d))).
Proof.
  intros Hwf Hd. split.
  - destruct (filter_scene_result type (fun b => js_and b JFunction) c s n d) as [Hm Hl];
      auto; [now intros [] |].
    unfold filterByCategories. cbn [scene devices]. rewrite filter_scene_as_writes.
    split; [|split].
    + rewrite (map_get_map_values
                 (fun d => set_visible (shouldShow c (type (info d))) d)), Hd.
      reflexivity.
    + exact Hm.
    + intros l Hlab. now apply Hl.
  - destruct (filter_scene_result category JBool c s n d) as [Hm Hl]; auto.
    unfold Demo.filterByCategories. cbn [scene devices].
    rewrite demo_filter_scene_as_writes.
    split; [|split].
    + rewrite (map_get_map_values
                 (fun d => set_visible (shouldShow c (category (info d))) d)), Hd.
      reflexivity.
    + exact Hm.
    + intros l Hlab. now apply Hl.
Qed.

(** With two firewalls and three switches loaded and the filter on
    "firewall": switch [sw1] is not visible, its mesh (node 4) is disabled. *)
Lemma filter_reaches_scene_witness :
  own_enabled
    (scene (filterByCategories ["firewall"]
              (@loadDevices offline_host two_firewalls_three_switches newDeviceManager)))
    4 = false.
Proof.
  exact (proj1 (proj2 (proj1 (filter_reaches_scene ["firewall"]
           (@loadDevices offline_host two_firewalls_three_switches newDeviceManager)
           "sw1" (mkDevice 4 (plain "sw1" "switch") true)
           (@loadDevices_wf offline_host _ _ new_manager_wf) eq_refl)))).
Defined.

Lemma toggle_writes_In (b : bool) (lbls : list (string * nat)) (j : nat) (v : JsVal) :
  In (j, v) (toggle_writes b lbls) <->
  v = js_and b JFunction /\ exists n, In (n, j) lbls.
Proof.
  unfold toggle_writes. rewrite in_map_iff. split.
  - intros ([n l] & Heq & Hin). cbn in Heq. inversion Heq; subst. eauto.
  - intros [-> [n Hin]]. now exists (n, j).
Qed.

(** X3. In a registry built by the managers, [toggleLabels(show)] leaves the
    devices and their meshes alone, and afterwards a label is enabled exactly
    when [show] is true and the mesh of its device is enabled: switching the
    labels off hides every label, switching them on shows the labels of the
    devices that are shown. *)
Theorem toggleLabels_effect (b : bool) (s : DeviceManager) (n : string) (l : nat) (d : Device) :
  registry_wf s ->
  map_get n (labels s) = Some l -> map_get n (devices s) = Some d ->
  isEnabled (scene (toggleLabels b s)) l = b && own_enabled (scene s) (mesh d) /\
  own_enabled (scene (toggleLabels b s)) (mesh d) = own_enabled (scene s) (mesh d) /\
  devices (toggleLabels b s) = devices s.
Proof.
  intros (Hnd & Hnl & Hdev & Hlab) Hl Hd.
  destruct (Hdev n d Hd) as (nd & Hnode & Hkind & Hpar).
  destruct (Hlab n l Hl) as (nl & d0 & Hnl' & Hkl & Hd0 & Hpl).
  rewrite Hd in Hd0. inversion Hd0; subst d0.
  unfold toggleLabels. cbn [scene devices]. rewrite toggle_scene_as_writes.
  assert (Hwl : last_write l (toggle_writes b (labels s)) = Some (js_and b JFunction)).
  { apply last_write_agree.
    - apply toggle_writes_In. split; [reflexivity|]. exists n.
      now apply map_get_Some_In.
    - intros v' Hv'. now apply toggle_writes_In in Hv'. }
  assert (Hwm : last_write (mesh d) (toggle_writes b (labels s)) = None).
  { apply last_write_None. intros Hin. apply in_map_iff in Hin.
    destruct Hin as ([j v] & Hj & Hin). cbn in Hj. subst j.
    apply toggle_writes_In in Hin. destruct Hin as (_ & n' & Hin).
    pose proof (In_map_get _ _ _ Hnl Hin) as Hl'.
    destruct (Hlab n' (mesh d) Hl') as (nl' & _ & Hnode' & Hkl' & _).
    rewrite Hnode in Hnode'. inversion Hnode'; subst nl'. congruence. }
  assert (Hm' : apply_writes (toggle_writes b (labels s)) (scene s) !! mesh d = Some nd).
  { now rewrite apply_writes_lookup, Hwm. }
  assert (Hl' : apply_writes (toggle_writes b (labels s)) (scene s) !! l
                = Some (with_enabled (js_and b JFunction) nl)).
  { now rewrite apply_writes_lookup, Hwl, Hnl'. }
  split; [|split; [|reflexivity]].
  - rewrite (isEnabled_label _ l (mesh d) _ _ Hl' Hpl Hm' Hpar).
    unfold own_enabled. rewrite Hnode. cbn. now destruct b.
  - unfold own_enabled. now rewrite Hm', Hnode.
Qed.

(** With two firewalls and three switches loaded and the switches filtered
    out, switching the labels on leaves the label of [sw1] (node 5) hidden and
    shows the label of [fw1] (node 1). *)
Lemma toggleLabels_effect_witness :
  isEnabled
    (scene (toggleLabels true
              (filterByCategories ["firewall"]
                 (@loadDevices offline_host two_firewalls_three_switches newDeviceManager))))
    5 = false /\
  isEnabled
    (scene (toggleLabels true
              (filterByCategories ["firewall"]
                 (@loadDevices offline_host two_firewalls_three_switches newDeviceManager))))
    1 = true.
Proof.
  pose proof (proj1 (run_op_wf (OpFilter ["firewall"]) _
                (@loadDevices_wf offline_host two_firewalls_three_switches _ new_manager_wf)))
    as Hwf.
  split.
  - exact (proj1 (toggleLabels_effect true _ "sw1" 5
                    (mkDevice 4 (plain "sw1" "switch") false) Hwf eq_refl eq_refl)).
  - exact (proj1 (toggleLabels_effect true _ "fw1" 1
                    (mkDevice 0 (plain "fw1" "firewall") true) Hwf eq_refl eq_refl)).
Defined.

(** X4. Of two label switches in a row only the second counts. *)
Theorem toggleLabels_last_wins (b b' : bool) (s : DeviceManager) :
  toggleLabels b (toggleLabels b' s) = toggleLabels b s.
Proof.
  unfold toggleLabels. cbn [scene devices labels deviceData loadedModels fetchLog].
  f_equal. rewrite !toggle_scene_as_writes.
  apply apply_writes_absorb. intros j.
  unfold toggle_writes. now rewrite !map_map.
Qed.

(** ** What loading adds *)

Lemma map_set_length {V} (k : string) (v : V) (m : list (string * V)) :
  length m <= length (map_set k v m) <= S (length m).
Proof.
  induction m as [|[k' v'] m IH]; cbn [map_set length]; [lia|].
  destruct (String.eqb k' k); cbn [length]; lia.
Qed.

Lemma fold_createDevice_growth `{Babylon} (batch : list DeviceInfo) (s s0 : DeviceManager) :
  loadedModels s = loadedModels s0 ->
  let built := filter (fun d => buildVisual (select_model s0 d) d = true) batch in
  length (scene (fold_left createDevice batch s)) = length (scene s) + 2 * length built /\
  length (devices s) <= length (devices (fold_left createDevice batch s))
    <= length (devices s) + length built /\
  forall i nd, scene s !! i = Some nd -> scene (fold_left createDevice batch s) !! i = Some nd.
Proof.
  revert s. induction batch as [|d batch IH]; intros s Hm built.
  - cbn. repeat split; auto; lia.
  - unfold built. rewrite filter_cons. cbn [fold_left].
    destruct (createDevice_cache s d) as (Hc & _ & _).
    assert (Hm' : loadedModels (createDevice s d) = loadedModels s0) by (now rewrite Hc).
    destruct (IH (createDevice s d) Hm') as (Hlen & Hdev & Hpre). clear Hm' Hc.
    rewrite Hlen. unfold createDevice in *.
    rewrite (select_model_cache s0 s d Hm) in *.
    destruct (buildVisual (select_model s0 d) d) eqn:Hok.
    + rewrite decide_True by reflexivity. cbn [scene devices length] in *.
      rewrite length_app in *. cbn [length] in *.
      pose proof (map_set_length (name d) (mkDevice (length (scene s)) d true) (devices s)).
      repeat split; try lia.
      intros i nd Hi. apply Hpre. now apply lookup_app_l_Some.
    + rewrite decide_False by discriminate. repeat split; auto; lia.
Qed.

(** X5. [loadDevices] only adds: every node of the scene stays where it was;
    each descriptor whose visual builds adds exactly two nodes, its mesh and
    its label, also when its name was registered before; and the registry
    grows by at most one entry per built descriptor and never shrinks.
    A descriptor is built when [buildVisual] succeeds on the model that
    [select_model] picks for it after the preload. *)
Theorem loadDevices_growth `{Babylon} (batch : list DeviceInfo) (s : DeviceManager) :
  let s0 := preloadModels (mkDeviceManager (scene s) (devices s) (labels s) batch
                                           (loadedModels s) (fetchLog s)) in
  let built := filter (fun d => buildVisual (select_model s0 d) d = true) batch in
  length (scene (loadDevices batch s)) = length (scene s) + 2 * length built /\
  getDeviceCount s <= getDeviceCount (loadDevices batch s)
    <= getDeviceCount s + length built /\
  forall i nd, scene s !! i = Some nd -> scene (loadDevices batch s) !! i = Some nd.
Proof.
  intros s0 built.
  assert (Hframe : scene s0 = scene s /\ devices s0 = devices s).
  { unfold s0, preloadModels.
    destruct (preload_frame modelPaths
                (mkDeviceManager (scene s) (devices s) (labels s) batch
                                 (loadedModels s) (fetchLog s))) as (H1 & H2 & _).
    split; assumption. }
  destruct Hframe as [Hsc Hds].
  destruct (fold_createDevice_growth batch s0 s0 eq_refl) as (Hlen & Hdev & Hpre).
  unfold getDeviceCount, loadDevices. fold s0. fold built in Hlen, Hdev.
  rewrite Hsc in Hlen, Hpre. rewrite Hds in Hdev. auto.
Qed.

(** ** What the cache holds after preloading *)

Lemma preload_untouched `{Babylon} (paths : list (string * string)) (s : DeviceManager)
    (k : string) :
  ~ In k (keys paths) ->
  loadedModels (fold_left preload_step paths s) !! k = loadedModels s !! k.
Proof.
  revert s. induction paths as [|[k' p] paths IH]; intros s Hk; [reflexivity|].
  cbn [fold_left]. rewrite IH.
  - cbn [preload_step loadedModels]. apply lookup_insert_ne.
    intros ->. apply Hk. left. reflexivity.
  - intros Hin. apply Hk. right. exact Hin.
Qed.

Lemma preload_outcome `{Babylon} (paths : list (string * string)) (s : DeviceManager)
    (i : nat) (k p : string) :
  NoDup (keys paths) -> paths !! i = Some (k, p) ->
  loadedModels (fold_left preload_step paths s) !! k =
  Some (if ImportMeshAsync (length (fetchLog s) + i) p
        then Some (mkTemplate p (length (fetchLog s) + i)) else None).
Proof.
  revert s i. induction paths as [|[k' p'] paths IH]; intros s i Hnd Hi; [discriminate|].
  cbn [keys map fst] in Hnd. apply NoDup_cons in Hnd. destruct Hnd as [Hk' Hnd].
  cbn [fold_left]. destruct i as [|i].
  - cbn in Hi. inversion Hi; subst k' p'.
    rewrite preload_untouched.
    + cbn [preload_step loadedModels]. rewrite lookup_insert_eq.
      now rewrite Nat.add_0_r.
    + intros Hin. apply Hk'. now apply list_elem_of_In.
  - cbn in Hi. rewrite (IH _ i Hnd Hi).
    cbn [preload_step fetchLog]. rewrite length_app. cbn [length].
    now replace (length (fetchLog s) + 1 + i) with (length (fetchLog s) + S i) by lia.
Qed.

(** X6. After [loadDevices] the cache entry of the [i]-th type key of
    [preloadModels] is the outcome of the import this call issued for it,
    the [i]-th import of the call: the loaded model, or the failure mark when
    the import was rejected; the entries of other keys are as before. *)
Theorem loadDevices_cache `{Babylon} (batch : list DeviceInfo) (s : DeviceManager) :
  (forall i k p, modelPaths !! i = Some (k, p) ->
     loadedModels (loadDevices batch s) !! k =
     Some (if ImportMeshAsync (length (fetchLog s) + i) p
           then Some (mkTemplate p (length (fetchLog s) + i)) else None)) /\
  (forall k, ~ In k (keys modelPaths) ->
     loadedModels (loadDevices batch s) !! k = loadedModels s !! k).
Proof.
  assert (Hmodels : loadedModels (loadDevices batch s) =
    loadedModels (fold_left preload_step modelPaths
                    (mkDeviceManager (scene s) (devices s) (labels s) batch
                                     (loadedModels s) (fetchLog s)))).
  { unfold loadDevices, preloadModels.
    now destruct (fold_createDevice_cache batch
                    (fold_left preload_step modelPaths
                       (mkDeviceManager (scene s) (devices s) (labels s) batch
                                        (loadedModels s) (fetchLog s)))) as (-> & _). }
  rewrite Hmodels. split.
  - intros i k p Hi.
    now rewrite (preload_outcome modelPaths _ i k p modelPaths_keys_NoDup Hi).
  - intros k Hk. now rewrite preload_untouched.
Qed.

(** ** Which models an endpoint can get *)

Lemma scan_vendors_range (m : string) (vendors : list (string * list string)) (r : string) :
  scan_vendors m vendors = Some r -> r = "laptop" \/ r = "desktop".
Proof.
  induction vendors as [|[v ps] vendors IH]; cbn [scan_vendors]; [discriminate|].
  destruct (scan_prefixes m v ps) as [r0|] eqn:Hs; [|exact IH].
  intros [= <-]. apply scan_prefixes_Some in Hs.
  destruct (String.eqb v "apple"); auto.
Qed.

Lemma detectEndpointType_range (d : DeviceInfo) :
  detectEndpointType d = "laptop" \/ detectEndpointType d = "desktop" \/
  detectEndpointType d = "mobile".
Proof.
  unfold detectEndpointType.
  destruct (scan_vendors _ macVendors) as [r|] eqn:Hs.
  - apply scan_vendors_range in Hs. tauto.
  - repeat match goal with
           | |- context [if ?c then _ else _] => destruct c
           end; tauto.
Qed.

(** X7. For a descriptor of type "endpoint", [createDevice] consults the
    cache under one of the keys endpoint-laptop, endpoint-desktop and
    endpoint-mobile only: two managers whose caches agree on these three keys
    pick the same model.  The model preloaded as endpoint-server is never
    used for an endpoint. *)
Theorem endpoint_model_keys (s s' : DeviceManager) (d : DeviceInfo) :
  type d = Some "endpoint" ->
  (forall k, In k ["endpoint-laptop"; "endpoint-desktop"; "endpoint-mobile"] ->
             loadedModels s' !! k = loadedModels s !! k) ->
  select_model s' d = select_model s d.
Proof.
  intros Ht Hagree. unfold select_model, cached_model. rewrite Ht.
  cbn [opt_eqb]. rewrite String.eqb_refl.
  destruct (detectEndpointType_range d) as [-> | [-> | ->]];
    rewrite Hagree; try reflexivity; cbn; auto.
Qed.

(** Adding a server model to the cache does not change what a phone gets. *)
Lemma endpoint_model_keys_witness :
  select_model
    (mkDeviceManager [] [] [] []
       {[ "endpoint-server" := Some (mkTemplate "assets/models/endpoint-server.glb" 7) ]} [])
    (plain "Bobs phone" "endpoint")
  = select_model newDeviceManager (plain "Bobs phone" "endpoint").
Proof.
  apply endpoint_model_keys; [reflexivity|].
  intros k [<- | [<- | [<- | []]]]; reflexivity.
Defined.

(** ** The cells of the auto-layout *)

(** X8. For an index [i >= 0] with grid size [g], [autoPositionDevice] uses
    row [i / g] and column [i mod g], both below [g], so that the device lies
    at height 1 inside the square [-2g, 2g - 4] x [-2g, 2g - 4], on even
    integer coordinates. *)
Theorem autoPosition_in_grid (index : Z) :
  (0 <= index)%Z ->
  let g := Z.sqrt_up (index + 1) in
  let p := autoPositionDevice index in
  (0 <= index / g < g)%Z /\ (0 <= index mod g < g)%Z /\
  (vx p == inject_Z (4 * (index mod g) - 2 * g))%Q /\
  (vz p == inject_Z (4 * (index / g) - 2 * g))%Q /\
  vy p = 1%Q /\
  (inject_Z (- 2 * g) <= vx p <= inject_Z (2 * g - 4))%Q /\
  (inject_Z (- 2 * g) <= vz p <= inject_Z (2 * g - 4))%Q.
Proof.
  intros Hi g p.
  destruct (gridSize_spec index Hi) as [Hpos [_ Hle]]. fold g in Hpos, Hle.
  assert (Hrow : (0 <= index / g < g)%Z).
  { split; [apply Z.div_pos; lia|]. apply Z.div_lt_upper_bound; lia. }
  assert (Hcol : (0 <= index mod g < g)%Z) by (apply Z.mod_pos_bound; lia).
  assert (Hx : (vx p == inject_Z (4 * (index mod g) - 2 * g))%Q).
  { unfold p, autoPositionDevice. fold g. cbn [vx].
    unfold Zminus. rewrite inject_Z_plus, inject_Z_opp, !inject_Z_mult.
    change (inject_Z 4) with 4%Q. change (inject_Z 2) with 2%Q. field. }
  assert (Hz : (vz p == inject_Z (4 * (index / g) - 2 * g))%Q).
  { unfold p, autoPositionDevice. fold g. cbn [vz].
    unfold Zminus. rewrite inject_Z_plus, inject_Z_opp, !inject_Z_mult.
    change (inject_Z 4) with 4%Q. change (inject_Z 2) with 2%Q. field. }
  split; [exact Hrow|]. split; [exact Hcol|]. split; [exact Hx|]. split; [exact Hz|].
  split; [reflexivity|]. rewrite Hx, Hz, <- !Zle_Qle. lia.
Qed.

(** The tenth device (index 9, grid size 4) lies in row 2, column 1. *)
Lemma autoPosition_in_grid_witness :
  (vx (autoPositionDevice 9) == inject_Z (4 * (9 mod 4) - 2 * 4))%Q /\
  (vz (autoPositionDevice 9) == inject_Z (4 * (9 / 4) - 2 * 4))%Q.
Proof.
  destruct (autoPosition_in_grid 9 ltac:(lia)) as (_ & _ & Hx & Hz & _).
  split; [exact Hx | exact Hz].
Defined.

(** X9. Two indices that see the same grid size are never given the same
    point: collisions of the auto-layout only occur between indices of
    different grid sizes. *)
Theorem same_grid_no_collision (i j : Z) :
  (0 <= i)%Z -> (0 <= j)%Z -> i <> j ->
  Z.sqrt_up (i + 1) = Z.sqrt_up (j + 1) ->
  ~ same_point (autoPositionDevice i) (autoPositionDevice j).
Proof.
  intros Hi Hj Hne Hg Hsame. apply Hne. now apply same_grid_distinct.
Qed.

(** Indices 4 and 8 both have grid size 3. *)
Lemma same_grid_no_collision_witness :
  ~ same_point (autoPositionDevice 4) (autoPositionDevice 8).
Proof.
  apply same_grid_no_collision; [lia | lia | lia | reflexivity].
Defined.

(** ** Showing and hiding links *)

Lemma toggleVisibility_lookup (show : bool) (cm : ConnectionManager) (i : nat) :
  connections (toggleVisibility show cm) !! i =
  (fun c => mkConnection (mesh1 c) (mesh2 c)
              (option_map (fun l => mkLine (line_name l) (points l) (line_color l)
                                           (isPickable l) show) (line c))
              (conn_visible c)) <$> (connections cm !! i).
Proof.
  unfold toggleVisibility. cbn [connections].
  match goal with
  | |- map ?f ?l !! _ = _ => change (map f l) with (f <$> l)
  end.
  apply list_lookup_fmap.
Qed.

(** X10. [toggleVisibility(show)] sets the enabled flag of every existing
    line to [show] and changes nothing else: the same connections between
    the same meshes along the same points.  It does not reach later links: a
    connection created afterwards has its line enabled, also while the
    manager is hidden.  Of two calls in a row only the second counts. *)
Theorem toggleVisibility_effect (show : bool) (cm : ConnectionManager) :
  cm_visible (toggleVisibility show cm) = show /\
  getConnectionCount (toggleVisibility show cm) = getConnectionCount cm /\
  (forall i c, connections cm !! i = Some c ->
     exists c', connections (toggleVisibility show cm) !! i = Some c' /\
       mesh1 c' = mesh1 c /\ mesh2 c' = mesh2 c /\ conn_visible c' = conn_visible c /\
       option_map points (line c') = option_map points (line c) /\
       option_map line_enabled (line c') = option_map (fun _ => show) (line c)) /\
  (forall m1 m2, exists l,
     last_connection (createConnection m1 m2 (toggleVisibility show cm))
       = Some (mkConnection m1 m2 (Some l) true) /\
     line_enabled l = true /\
     cm_visible (createConnection m1 m2 (toggleVisibility show cm)) = show) /\
  (forall show', toggleVisibility show' (toggleVisibility show cm) = toggleVisibility show' cm).
Proof.
  split; [reflexivity|]. split; [|split; [|split]].
  - unfold getConnectionCount, toggleVisibility. cbn [connections]. apply length_map.
  - intros i c Hc. rewrite toggleVisibility_lookup, Hc. cbn.
    eexists. split; [reflexivity|]. cbn. repeat split; now destruct (line c).
  - intros m1 m2. eexists. split.
    + unfold last_connection, createConnection. cbn [connections].
      rewrite last_snoc. reflexivity.
    + split; reflexivity.
  - intros show'. unfold toggleVisibility. cbn [connections]. f_equal.
    rewrite map_map. apply map_ext. intros c. cbn. f_equal. now destruct (line c).
Qed.

(** ** Links derived from the roles *)






(** ** The category check boxes *)

Lemma selectedCategories_In (boxes : list Checkbox) (v : string) :
  In v (selectedCategories boxes) <->
  exists cb, In cb boxes /\ cb_checked cb = true /\ cb_value cb = v.
Proof.
  unfold selectedCategories. rewrite in_map_iff. split.
  - intros (cb & Hv & Hin). apply list_elem_of_In, list_elem_of_filter in Hin.
    destruct Hin as [Hc Hin]. apply list_elem_of_In in Hin. eauto.
  - intros (cb & Hin & Hc & Hv). exists cb. split; [exact Hv|].
    apply list_elem_of_In, list_elem_of_filter. split; [exact Hc|].
    now apply list_elem_of_In.
Qed.

Lemma filter_length_all {A} (P : A -> bool) (l : list A) :
  (forall x, P x = true) -> length (filter (fun x => P x = true) l) = length l.
Proof.
  intros HP. induction l as [|x l IH]; [reflexivity|].
  rewrite filter_cons, decide_True by apply HP. cbn [length]. now rewrite IH.
Qed.

Lemma filter_length_none {A} (P : A -> bool) (l : list A) :
  (forall x, P x = false) -> length (filter (fun x => P x = true) l) = 0.
Proof.
  intros HP. induction l as [|x l IH]; [reflexivity|].
  rewrite filter_cons, decide_False; [exact IH|]. rewrite HP. discriminate.
Qed.

(** X12. [updateDeviceVisibility] shows a device exactly when a checked box
    carries "all" or the device's type.  With no box checked no device is
    visible; with the box "all" checked every device is, whatever the other
    boxes say. *)
Theorem updateDeviceVisibility_boxes (boxes : list Checkbox) (s : DeviceManager) :
  Forall2 (fun before after =>
             fst after = fst before /\
             (visible (snd after) = true <->
              exists cb, In cb boxes /\ cb_checked cb = true /\
                         (cb_value cb = "all" \/
                          type (info (snd before)) = Some (cb_value cb))))
          (devices s) (devices (updateDeviceVisibility boxes s)) /\
  ((forall cb, In cb boxes -> cb_checked cb = false) ->
   getVisibleDeviceCount (updateDeviceVisibility boxes s) = 0) /\
  ((exists cb, In cb boxes /\ cb_checked cb = true /\ cb_value cb = "all") ->
   getVisibleDeviceCount (updateDeviceVisibility boxes s) = getDeviceCount s).
Proof.
  unfold updateDeviceVisibility. split; [|split].
  - unfold filterByCategories. cbn [devices].
    apply Forall2_map_self. intros [n d]. cbn [fst snd set_visible visible].
    split; [reflexivity|].
    destruct (in_dec String.string_dec "all" (selectedCategories boxes)) as [Hall|Hno].
    + rewrite (shouldShow_all _ _ Hall). split; [intros _|reflexivity].
      apply selectedCategories_In in Hall. destruct Hall as (cb & Hin & Hc & Hv). eauto 6.
    + rewrite (shouldShow_selected _ _ Hno). split.
      * intros (t & Ht & Hin). apply selectedCategories_In in Hin.
        destruct Hin as (cb & Hin & Hc & Hv). exists cb. subst t. auto.
      * intros (cb & Hin & Hc & [Hv | Ht]).
        -- exfalso. apply Hno. apply selectedCategories_In. eauto.
        -- exists (cb_value cb). split; [exact Ht|].
           apply selectedCategories_In. eauto.
  - intros Hnone. rewrite visible_count_filter.
    apply filter_length_none. intros d.
    destruct (shouldShow (selectedCategories boxes) (type (info d))) eqn:Hs; [|reflexivity].
    exfalso.
    assert (Hempty : selectedCategories boxes = []).
    { destruct (selectedCategories boxes) as [|v vs] eqn:Hsel; [reflexivity|].
      assert (Hin : In v (selectedCategories boxes)) by (rewrite Hsel; left; reflexivity).
      apply selectedCategories_In in Hin. destruct Hin as (cb & Hin & Hc & _).
      rewrite (Hnone cb Hin) in Hc. discriminate. }
    rewrite Hempty in Hs. unfold shouldShow in Hs. cbn in Hs.
    destruct (type (info d)); discriminate.
  - intros Hall. rewrite visible_count_filter. unfold getDeviceCount, getAllDevices.
    rewrite filter_length_all, length_map; [reflexivity|].
    intros d. apply shouldShow_all. now apply selectedCategories_In.
Qed.

(** ** Hovering *)

Lemma hover_keeps_material (tint c : Color3) (events : list bool) (m : Look) :
  option_map (fun _ => c) (emissiveColor (hover_events tint events m)) =
  option_map (fun _ => c) (emissiveColor m).
Proof.
  unfold hover_events. revert m.
  induction events as [|e events IH]; intros m; [reflexivity|].
  cbn [fold_left]. rewrite IH. unfold onDeviceHover.
  destruct e; cbn; now destruct (emissiveColor m).
Qed.

(** X13. After any run of pointer events a mesh looks as its last event
    says, whatever came before: scaled by 1.1 and tinted after an over,
    at unit scale with a black emissive colour after an out.  So an out
    always undoes an over, and repeating an event changes nothing.  A mesh
    without material never gets an emissive colour. *)
Theorem hover_last_event (tint : Color3) (events : list bool) (e : bool) (m : Look) :
  hover_events tint (events ++ [e]) m = onDeviceHover tint e m.
Proof.
  unfold hover_events. rewrite fold_left_app. cbn [fold_left].
  fold (hover_events tint events m). unfold onDeviceHover.
  destruct e; f_equal; apply hover_keeps_material.
Qed.

(** ** Animation of the demonstration manager *)

Lemma toggleAnimation_frame (t : bool) (st : Stage) :
  stage_manager (toggleAnimation t st) = stage_manager st /\
  rotation_y (toggleAnimation t st) = rotation_y st /\
  animationEnabled (toggleAnimation t st) = t /\
  beforeRender (toggleAnimation t st) = beforeRender st + (if t then 1 else 0).
Proof. destruct t; cbn; repeat split; lia. Qed.

(** X14. Every [toggleAnimation(true)] registers one more render callback
    and none is ever removed: after a run of switches the number of
    registered callbacks has grown by the number of times the animation was
    switched on, while the switch itself shows the last value only. *)
Theorem toggle_all_callbacks (ts : list bool) (st : Stage) :
  beforeRender (toggle_all ts st)
    = beforeRender st + length (filter (fun t => t = true) ts) /\
  animationEnabled (toggle_all ts st) = default (animationEnabled st) (last ts) /\
  stage_manager (toggle_all ts st) = stage_manager st /\
  rotation_y (toggle_all ts st) = rotation_y st.
Proof.
  unfold toggle_all. revert st.
  induction ts as [|t ts IH]; intros st; cbn [fold_left].
  - cbn. repeat split; lia.
  - destruct (IH (toggleAnimation t st)) as (Hb & He & Hm & Hr).
    destruct (toggleAnimation_frame t st) as (Hm' & Hr' & He' & Hb').
    rewrite Hb, He, Hm, Hr, Hm', Hr', He', Hb', filter_cons.
    repeat split.
    + destruct t; simpl; lia.
    + destruct ts as [|t' ts]; [reflexivity|]. rewrite last_cons_cons.
      destruct (last (t' :: ts)) eqn:Hl; [reflexivity|].
      apply last_None in Hl. discriminate.
Qed.

Lemma rotation_of_insert (rot : gmap nat Q) (i j : nat) (q : Q) :
  rotation_of (<[i := q]> rot) j = if Nat.eqb i j then q else rotation_of rot j.
Proof.
  unfold rotation_of. destruct (Nat.eqb i j) eqn:He.
  - apply Nat.eqb_eq in He. subst j. now rewrite lookup_insert_eq.
  - apply Nat.eqb_neq in He. now rewrite lookup_insert_ne.
Qed.

Lemma visible_hits_cons (m : nat) (n : string) (d : Device) (ds : list (string * Device)) :
  visible_hits m ((n, d) :: ds) =
  (if visible d && Nat.eqb (mesh d) m then 1 else 0) + visible_hits m ds.
Proof.
  unfold visible_hits. rewrite filter_cons. cbn [snd].
  destruct (visible d && Nat.eqb (mesh d) m) eqn:He.
  - rewrite decide_True by reflexivity. reflexivity.
  - rewrite decide_False by discriminate. reflexivity.
Qed.

Lemma callback_fold_turn (ds : list (string * Device)) (rot : gmap nat Q) (m : nat) :
  (rotation_of
     (fold_left
        (fun rot e =>
           if visible (snd e)
           then <[mesh (snd e) := (rotation_of rot (mesh (snd e)) + (1 # 100))%Q]> rot
           else rot) ds rot) m
   == rotation_of rot m + inject_Z (Z.of_nat (visible_hits m ds)) * (1 # 100))%Q.
Proof.
  revert rot. induction ds as [|[n d] ds IH]; intros rot; cbn [fold_left].
  - cbn. ring.
  - eapply Qeq_trans; [apply IH|]. rewrite visible_hits_cons. cbn [snd].
    destruct (visible d) eqn:Hv; cbn [andb].
    + rewrite rotation_of_insert.
      destruct (Nat.eqb (mesh d) m) eqn:He.
      * rewrite Nat2Z.inj_add, inject_Z_plus.
        apply Nat.eqb_eq in He. subst m. change (inject_Z (Z.of_nat 1)) with 1%Q. ring.
      * reflexivity.
    + reflexivity.
Qed.

Lemma frame_turn (st : Stage) (k : nat) (rot : gmap nat Q) (m : nat) :
  (rotation_of (Nat.iter k (animation_callback st) rot) m
   == rotation_of rot m +
      (if animationEnabled st
       then inject_Z (Z.of_nat k) * inject_Z (Z.of_nat (visible_hits m (devices (stage_manager st))))
            * (1 # 100)
       else 0))%Q.
Proof.
  induction k as [|k IH]; [|rewrite Nat.iter_succ].
  - destruct (animationEnabled st); cbn; ring.
  - unfold animation_callback at 1. destruct (animationEnabled st) eqn:He; cbn [negb].
    + eapply Qeq_trans; [apply callback_fold_turn|].
      eapply Qeq_trans; [apply Qplus_comp; [apply IH | apply Qeq_refl]|].
      rewrite Nat2Z.inj_succ. unfold Z.succ. rewrite inject_Z_plus.
      change (inject_Z 1) with 1%Q. ring.
    + exact IH.
Qed.

Lemma visible_hits_none (m : nat) (ds : list (string * Device)) :
  (forall n d, In (n, d) ds -> mesh d <> m) -> visible_hits m ds = 0.
Proof.
  intros Hno. induction ds as [|[n d] ds IH]; [reflexivity|].
  rewrite visible_hits_cons, IH.
  - assert (Hne : mesh d <> m) by (apply (Hno n d); now left).
    apply Nat.eqb_neq in Hne. now rewrite Hne, andb_false_r.
  - intros n' d' Hin. apply (Hno n' d'). now right.
Qed.

Lemma visible_hits_one (ds : list (string * Device)) (n : string) (d : Device) :
  NoDup (keys ds) -> In (n, d) ds ->
  (forall n' d', In (n', d') ds -> mesh d' = mesh d -> n' = n) ->
  visible_hits (mesh d) ds = if visible d then 1 else 0.
Proof.
  induction ds as [|[n0 d0] ds IH]; intros Hnd Hin Hinj; [destruct Hin|].
  cbn [keys map fst] in Hnd. apply NoDup_cons in Hnd. destruct Hnd as [Hn0 Hnd].
  assert (Hkey : forall n' d', In (n', d') ds -> n' <> n0).
  { intros n' d' Hin' ->. apply Hn0. apply list_elem_of_In, in_map_iff.
    now exists (n0, d'). }
  rewrite visible_hits_cons.
  destruct Hin as [Heq|Hin].
  - inversion Heq; subst n0 d0. rewrite Nat.eqb_refl, andb_true_r.
    rewrite visible_hits_none.
    + now destruct (visible d).
    + intros n' d' Hin' Hm. apply (Hkey n' d' Hin'). apply (Hinj n' d'); [now right | exact Hm].
  - assert (Hne : mesh d0 <> mesh d).
    { intros Hm. apply (Hkey n d Hin). symmetry. apply (Hinj n0 d0); [now left | exact Hm]. }
    apply Nat.eqb_neq in Hne. rewrite Hne, andb_false_r. cbn [Nat.add].
    apply IH; auto. intros n' d' Hin' Hm. apply (Hinj n' d'); [now right | exact Hm].
Qed.

Lemma wf_mesh_owner (s : DeviceManager) (n n' : string) (d d' : Device) :
  registry_wf s -> map_get n (devices s) = Some d -> In (n', d') (devices s) ->
  mesh d' = mesh d -> n' = n.
Proof.
  intros (Hnd & _ & Hdev & _) Hd Hin Hm.
  destruct (Hdev n d Hd) as (nd & Hnode & Hkind & _).
  destruct (Hdev n' d' (In_map_get _ _ _ Hnd Hin)) as (nd' & Hnode' & Hkind' & _).
  rewrite Hm, Hnode in Hnode'. inversion Hnode'; subst nd'. congruence.
Qed.

(** X15. With the animation on, one frame of the demonstration manager
    turns every visible device by 0.01 for each registered callback, and
    leaves hidden devices alone; with the animation off nothing turns.  The
    callbacks are counted by [toggle_all_callbacks]: one for each time the
    animation was switched on. *)
Theorem render_frame_turn (st : Stage) (n : string) (d : Device) :
  registry_wf (stage_manager st) ->
  map_get n (devices (stage_manager st)) = Some d ->
  (rotation_of (rotation_y (render_frame st)) (mesh d)
   == rotation_of (rotation_y st) (mesh d) +
      (if animationEnabled st && visible d
       then inject_Z (Z.of_nat (beforeRender st)) * (1 # 100)
       else 0))%Q.
Proof.
  intros Hwf Hd. unfold render_frame. cbn [rotation_y].
  rewrite frame_turn.
  rewrite (visible_hits_one (devices (stage_manager st)) n d).
  - destruct (animationEnabled st), (visible d); cbn; ring.
  - apply Hwf.
  - now apply map_get_Some_In.
  - intros n' d' Hin Hm. now apply (wf_mesh_owner (stage_manager st) n n' d d').
Qed.

(** The animation is switched on, off and on again: one frame then turns
    the first loaded device by two hundredths. *)
Lemma render_frame_turn_witness :
  (rotation_of
     (rotation_y
        (render_frame
           (toggle_all [true; false; true]
              (newStage (@Demo.loadDevice offline_host newDeviceManager
                           (plain "fw1" "firewall"))))))
     0
   == 2 # 100)%Q.
Proof.
  rewrite (render_frame_turn
             (toggle_all [true; false; true]
                (newStage (@Demo.loadDevice offline_host newDeviceManager
                             (plain "fw1" "firewall"))))
             "fw1" (mkDevice 0 (plain "fw1" "firewall") true)
             (proj2 (@createDevice_wf offline_host _ _ new_manager_wf)) eq_refl).
  reflexivity.
Defined.

(** ** The sample layout *)

Lemma fold_seq_lookup {A M S} (l : list A) (h : nat -> A -> M) (step : M -> S -> S)
    (n : nat) (sc : S) :
  n <= length l ->
  fold_left (fun sc i => match l !! i with
                         | Some x => step (h i x) sc
                         | None => sc
                         end) (seq 0 n) sc
  = fold_left (fun sc m => step m sc) (imap h (take n l)) sc.
Proof.
  induction n as [|n IH]; intros Hn; [reflexivity|].
  destruct (lookup_lt_is_Some_2 l n ltac:(lia)) as [x Hx].
  rewrite seq_S, (take_S_r l n x Hx), imap_app, !fold_left_app, IH by lia.
  cbn [fold_left imap Nat.add]. rewrite Hx, length_take_le by lia.
  unfold compose. now rewrite Nat.add_0_r.
Qed.

Lemma apply_moves_app (ms1 ms2 : list (nat * Vector3)) (sc : list Node) :
  apply_moves (ms1 ++ ms2) sc = apply_moves ms2 (apply_moves ms1 sc).
Proof. unfold apply_moves. apply fold_left_app. Qed.

Lemma place_category_moves (byCategory : string -> DeviceManager -> list Device)
    (dm : DeviceManager) (sc : list Node) (row : string * (Q * Q)) :
  place_category byCategory dm sc row = apply_moves (row_moves byCategory dm row) sc.
Proof.
  unfold place_category, row_moves, apply_moves.
  rewrite (fold_seq_lookup (byCategory (fst row) dm)
             (fun i device => (mesh device, row_position (snd row) i))
             (fun m sc => setPosition (fst m) (snd m) sc)) by lia.
  f_equal. f_equal.
  destruct (Nat.le_ge_cases (length (byCategory (fst row) dm)) 3) as [Hle|Hge].
  - rewrite Nat.min_l by exact Hle. now rewrite !take_ge by lia.
  - now rewrite Nat.min_r by exact Hge.
Qed.

Lemma place_rows_moves (byCategory : string -> DeviceManager -> list Device)
    (dm : DeviceManager) (rows : list (string * (Q * Q))) (sc : list Node) :
  fold_left (place_category byCategory dm) rows sc
  = apply_moves (flat_map (row_moves byCategory dm) rows) sc.
Proof.
  revert sc. induction rows as [|row rows IH]; intros sc; [reflexivity|].
  cbn [fold_left flat_map]. now rewrite IH, apply_moves_app, place_category_moves.
Qed.

Lemma setPosition_lookup (i : nat) (p : Vector3) (sc : list Node) (j : nat) :
  setPosition i p sc !! j =
  if Nat.eqb i j then with_position p <$> (sc !! j) else sc !! j.
Proof.
  unfold setPosition. rewrite list_lookup_alter.
  destruct (Nat.eqb i j) eqn:He.
  - apply Nat.eqb_eq in He. subst j. now rewrite decide_True.
  - apply Nat.eqb_neq in He. now rewrite decide_False.
Qed.

Lemma apply_moves_untouched (ms : list (nat * Vector3)) (sc : list Node) (j : nat) :
  ~ In j (map fst ms) -> apply_moves ms sc !! j = sc !! j.
Proof.
  revert sc. induction ms as [|[i p] ms IH]; intros sc Hj; [reflexivity|].
  cbn [map fst In] in Hj. unfold apply_moves. cbn [fold_left fst snd].
  fold (apply_moves ms (setPosition i p sc)). rewrite IH by tauto.
  rewrite setPosition_lookup.
  destruct (Nat.eqb i j) eqn:He; [|reflexivity].
  apply Nat.eqb_eq in He. tauto.
Qed.

(** A node whose moves all go to [p] ends at [p]. *)
Lemma apply_moves_agree (ms : list (nat * Vector3)) (sc : list Node) (j : nat) (p : Vector3) :
  In (j, p) ms -> (forall p', In (j, p') ms -> p' = p) ->
  apply_moves ms sc !! j = with_position p <$> (sc !! j).
Proof.
  revert sc. induction ms as [|[i q] ms IH]; intros sc Hin Hall; [destruct Hin|].
  unfold apply_moves. cbn [fold_left fst snd]. fold (apply_moves ms (setPosition i q sc)).
  destruct (in_dec Nat.eq_dec j (map fst ms)) as [Hj|Hj].
  - apply in_map_iff in Hj. destruct Hj as ([j' p'] & Hj' & Hin'). cbn in Hj'. subst j'.
    assert (p' = p) by (apply Hall; now right). subst p'.
    rewrite IH; [|exact Hin'|intros p' Hp'; apply Hall; now right].
    rewrite setPosition_lookup.
    destruct (Nat.eqb i j); [|reflexivity]. now destruct (sc !! j).
  - rewrite apply_moves_untouched by exact Hj.
    destruct Hin as [Heq|Hin].
    + inversion Heq; subst i q. now rewrite setPosition_lookup, Nat.eqb_refl.
    + exfalso. apply Hj. apply in_map_iff. now exists (j, p).
Qed.


Lemma row_moves_In (byCategory : string -> DeviceManager -> list Device)
    (dm : DeviceManager) (row : string * (Q * Q)) (j : nat) (p : Vector3) :
  In (j, p) (row_moves byCategory dm row) <->
  exists i d, byCategory (fst row) dm !! i = Some d /\ i < 3 /\
              j = mesh d /\ p = row_position (snd row) i.
Proof.
  unfold row_moves. rewrite <- list_elem_of_In, elem_of_lookup_imap. split.
  - intros (i & d & Heq & Hd). inversion Heq; subst j p.
    apply lookup_take_Some in Hd. destruct Hd as [Hd Hi]. eauto 6.
  - intros (i & d & Hd & Hi & -> & ->). exists i, d. split; [reflexivity|].
    apply lookup_take_Some. auto.
Qed.

Lemma wf_device_entry (s : DeviceManager) (d : Device) :
  registry_wf s -> In d (getAllDevices s) ->
  exists n nd, map_get n (devices s) = Some d /\ scene s !! mesh d = Some nd /\
               node_kind nd = Visual n.
Proof.
  intros (Hnd & _ & Hdev & _) Hin. unfold getAllDevices in Hin.
  apply in_map_iff in Hin. destruct Hin as ([n d'] & Heq & Hin). cbn in Heq. subst d'.
  pose proof (In_map_get _ _ _ Hnd Hin) as Hget.
  destruct (Hdev n d Hget) as (nd & Hnode & Hkind & _). eauto.
Qed.

(** In a well-formed registry a mesh belongs to one device. *)
Lemma wf_mesh_inj (s : DeviceManager) (d d' : Device) :
  registry_wf s -> In d (getAllDevices s) -> In d' (getAllDevices s) ->
  mesh d = mesh d' -> d = d'.
Proof.
  intros Hwf Hd Hd' Hm.
  destruct (wf_device_entry s d Hwf Hd) as (n & nd & Hget & Hnode & Hkind).
  destruct (wf_device_entry s d' Hwf Hd') as (n' & nd' & Hget' & Hnode' & Hkind').
  rewrite Hm, Hnode' in Hnode. inversion Hnode; subst nd'.
  rewrite Hkind' in Hkind. inversion Hkind; subst n'.
  rewrite Hget in Hget'. now inversion Hget'.
Qed.

Lemma wf_devices_NoDup (s : DeviceManager) :
  registry_wf s -> NoDup (getAllDevices s).
Proof.
  intros Hwf.
  assert (Hinj : forall d d', In d (getAllDevices s) -> In d' (getAllDevices s) ->
                              mesh d = mesh d' -> d = d')
    by (intros d d'; apply wf_mesh_inj; exact Hwf).
  destruct Hwf as (Hnd & _ & Hdev & _).
  unfold getAllDevices in *. revert Hnd Hdev Hinj.
  generalize (scene s). induction (devices s) as [|[n d] ds IH]; intros sc Hnd Hdev Hinj.
  - apply NoDup_nil_2.
  - cbn [keys map fst snd] in *. apply NoDup_cons in Hnd. destruct Hnd as [Hn Hnd].
    apply NoDup_cons. split.
    + intros Hin. apply list_elem_of_In, in_map_iff in Hin.
      destruct Hin as ([n' d'] & Heq & Hin). cbn in Heq. subst d'.
      apply Hn. apply list_elem_of_In, in_map_iff. exists (n', d). split; [|exact Hin].
      cbn. pose proof (Hdev n d) as Hhead. cbn [map_get] in Hhead.
      rewrite String.eqb_refl in Hhead. destruct (Hhead eq_refl) as (nd & Hnode & Hkind & _).
      destruct (String.eqb n n') eqn:He; [now apply String.eqb_eq in He|].
      pose proof (Hdev n' d) as Hother. cbn [map_get] in Hother. rewrite He in Hother.
      assert (Hget : map_get n' ds = Some d).
      { apply In_map_get; assumption. }
      destruct (Hother Hget) as (nd' & Hnode' & Hkind' & _).
      rewrite Hnode in Hnode'. inversion Hnode'; subst nd'. congruence.
    + apply (IH sc Hnd).
      * intros n' d' Hget. apply Hdev. cbn [map_get].
        destruct (String.eqb n n') eqn:He; [|exact Hget].
        apply String.eqb_eq in He. subst n'. exfalso. apply Hn.
        apply list_elem_of_In. apply map_get_is_Some. eauto.
      * intros d1 d2 H1 H2. apply Hinj; now right.
Qed.

Lemma devices_by_spec (key : DeviceInfo -> option string) (c : string)
    (s : DeviceManager) (i : nat) (d : Device) :
  devices_by key c s !! i = Some d ->
  In d (getAllDevices s) /\ key (info d) = Some c.
Proof.
  intros Hi. apply list_elem_of_lookup_2, list_elem_of_filter in Hi.
  destruct Hi as [Hk Hin]. split; [now apply list_elem_of_In|].
  unfold opt_eqb in Hk. destruct (key (info d)) as [v|]; [|discriminate].
  apply String.eqb_eq in Hk. now subst.
Qed.

(** The moves of the sample layout agree on every mesh they address. *)
Lemma sample_moves_agree (key : DeviceInfo -> option string) (dm : DeviceManager)
    (c : string) (cfg : Q * Q) (i : nat) (d : Device) (p' : Vector3) :
  registry_wf dm -> In (c, cfg) sampleRows ->
  devices_by key c dm !! i = Some d ->
  In (mesh d, p') (flat_map (row_moves (devices_by key) dm) sampleRows) ->
  p' = row_position cfg i.
Proof.
  intros Hwf Hrow Hi Hin. apply in_flat_map in Hin.
  destruct Hin as ([c' cfg'] & Hrow' & Hin). apply row_moves_In in Hin.
  destruct Hin as (i' & d' & Hi' & _ & Hm & ->). cbn [fst snd] in *.
  destruct (devices_by_spec key c dm i d Hi) as [Hd Hk].
  destruct (devices_by_spec key c' dm i' d' Hi') as [Hd' Hk'].
  assert (d' = d) by (apply (wf_mesh_inj dm); auto). subst d'.
  assert (c' = c) by congruence. subst c'.
  assert (i' = i).
  { eapply NoDup_lookup; [|exact Hi'|exact Hi].
    apply NoDup_filter. now apply wf_devices_NoDup. }
  subst i'.
  assert (cfg' = cfg); [|now subst].
  revert Hrow Hrow'. unfold sampleRows. cbn [In].
  intros [H1|[H1|[H1|[H1|[]]]]] [H2|[H2|[H2|[H2|[]]]]];
    inversion H1; inversion H2; subst; try reflexivity; discriminate.
Qed.



Lemma sample_scene (key : DeviceInfo -> option string) (dm : DeviceManager)
    (cm : ConnectionManager) (d0 : Device) :
  In d0 (getAllDevices dm) ->
  scene (fst (createSampleTopology (devices_by key) dm cm))
  = apply_moves (flat_map (row_moves (devices_by key) dm) sampleRows) (scene dm) /\
  devices (fst (createSampleTopology (devices_by key) dm cm)) = devices dm /\
  labels (fst (createSampleTopology (devices_by key) dm cm)) = labels dm /\
  snd (createSampleTopology (devices_by key) dm cm)
  = createConnections (devices_by key)
      (fst (createSampleTopology (devices_by key) dm cm)) cm.
Proof.
  intros Hin. unfold createSampleTopology.
  destruct (getAllDevices dm) as [|d1 ds]; [destruct Hin|].
  cbn [fst snd scene devices labels]. now rewrite place_rows_moves.
Qed.

Lemma sample_placement (key : DeviceInfo -> option string) (dm : DeviceManager)
    (cm : ConnectionManager) (c : string) (cfg : Q * Q) (i : nat) (d : Device) :
  registry_wf dm -> In (c, cfg) sampleRows ->
  devices_by key c dm !! i = Some d -> i < 3 ->
  exists nd, scene dm !! mesh d = Some nd /\
    scene (fst (createSampleTopology (devices_by key) dm cm)) !! mesh d
    = Some (with_position (row_position cfg i) nd).
Proof.
  intros Hwf Hrow Hi Hlt.
  destruct (devices_by_spec key c dm i d Hi) as [Hd _].
  destruct (wf_device_entry dm d Hwf Hd) as (n & nd & _ & Hnode & _).
  destruct (sample_scene key dm cm d Hd) as (Hsc & _).
  exists nd. split; [exact Hnode|]. rewrite Hsc.
  rewrite (apply_moves_agree _ _ (mesh d) (row_position cfg i)), Hnode; [reflexivity| |].
  - apply in_flat_map. exists (c, cfg). split; [exact Hrow|].
    apply row_moves_In. exists i, d. auto.
  - intros p' Hp'. now apply (sample_moves_agree key dm c cfg i d).
Qed.

Lemma sample_rows_distinct (c c' : string) (cfg cfg' : Q * Q) (i i' : nat) :
  In (c, cfg) sampleRows -> In (c', cfg') sampleRows -> i < 3 -> i' < 3 ->
  same_point (row_position cfg i) (row_position cfg' i') -> c = c' /\ i = i'.
Proof.
  unfold sampleRows. cbn [In].
  intros [H1|[H1|[H1|[H1|[]]]]] [H2|[H2|[H2|[H2|[]]]]] Hi Hi' (Hx & _ & Hz);
    inversion H1; inversion H2; subst;
    destruct i as [|[|[|i]]]; try lia; destruct i' as [|[|[|i']]]; try lia;
    try (split; reflexivity);
    vm_compute in Hx, Hz; first [discriminate Hx | discriminate Hz].
Qed.


(** X17. In a registry built by the managers, [createSampleTopology] puts
    the [i]-th device of a category of its table ([i] = 0, 1, 2) at
    [(x + (i - 1) * 2, 0.5, z)] of the category's row, changing nothing else
    of the mesh. *)
Theorem createSampleTopology_places (key : DeviceInfo -> option string)
    (dm : DeviceManager) (cm : ConnectionManager)
    (c : string) (cfg : Q * Q) (i : nat) (d : Device) :
  registry_wf dm -> In (c, cfg) sampleRows ->
  devices_by key c dm !! i = Some d -> i < 3 ->
  exists nd, scene dm !! mesh d = Some nd /\
    scene (fst (createSampleTopology (devices_by key) dm cm)) !! mesh d
    = Some (with_position
              (mkVector3 (fst cfg + (inject_Z (Z.of_nat i) - 1) * 2) (1 # 2) (snd cfg)) nd).
Proof. apply sample_placement. Qed.

(** Two firewalls and three switches loaded by the demonstration manager:
    the first switch (mesh 4) goes to (3, 0.5, 0). *)
Lemma createSampleTopology_places_witness :
  option_map node_position
    (scene (fst (@loadModels offline_host two_firewalls_three_switches
                   newDeviceManager newConnectionManager)) !! 4)
  = Some (mkVector3 (5 + (inject_Z (Z.of_nat 0) - 1) * 2) (1 # 2) 0).
Proof.
  destruct (createSampleTopology_places category
              (@fold_left _ _ (@Demo.loadDevice offline_host)
                 two_firewalls_three_switches newDeviceManager)
              newConnectionManager "switch" (5, 0)%Q 0
              (mkDevice 4 (plain "sw1" "switch") true)
              (@fold_loadDevice_wf offline_host _ _ new_manager_wf)
              ltac:(right; left; reflexivity) eq_refl ltac:(lia))
    as (nd & _ & Hpos).
  unfold loadModels, getDevicesByCategory_demo.
  change (fun (cat : string) (s : DeviceManager) =>
            filter (fun d => opt_eqb (category (info d)) cat = true) (getAllDevices s))
    with (devices_by category).
  cbn [mesh] in Hpos. rewrite Hpos. reflexivity.
Defined.

(** X18. The sample layout never puts two devices on one point: two
    different devices that it places, of the same or of different
    categories, end at different positions. *)
Theorem createSampleTopology_no_collision (key : DeviceInfo -> option string)
    (dm : DeviceManager) (cm : ConnectionManager)
    (c c' : string) (cfg cfg' : Q * Q) (i i' : nat) (d d' : Device) :
  registry_wf dm ->
  In (c, cfg) sampleRows -> devices_by key c dm !! i = Some d -> i < 3 ->
  In (c', cfg') sampleRows -> devices_by key c' dm !! i' = Some d' -> i' < 3 ->
  d <> d' ->
  exists nd nd',
    scene (fst (createSampleTopology (devices_by key) dm cm)) !! mesh d = Some nd /\
    scene (fst (createSampleTopology (devices_by key) dm cm)) !! mesh d' = Some nd' /\
    ~ same_point (node_position nd) (node_position nd').
Proof.
  intros Hwf Hrow Hi Hlt Hrow' Hi' Hlt' Hne.
  destruct (sample_placement key dm cm c cfg i d Hwf Hrow Hi Hlt) as (nd & _ & Hpos).
  destruct (sample_placement key dm cm c' cfg' i' d' Hwf Hrow' Hi' Hlt') as (nd' & _ & Hpos').
  eexists. eexists. split; [exact Hpos|]. split; [exact Hpos'|].
  cbn [with_position node_position]. intros Hsame.
  destruct (sample_rows_distinct c c' cfg cfg' i i' Hrow Hrow' Hlt Hlt' Hsame) as [-> ->].
  apply Hne. congruence.
Qed.

(** The second firewall (mesh 2) and the first switch (mesh 4) of the
    loaded demonstration registry are placed apart. *)
Lemma createSampleTopology_no_collision_witness :
  exists nd nd',
    scene (fst (createSampleTopology (devices_by category)
                  (@fold_left _ _ (@Demo.loadDevice offline_host)
                     two_firewalls_three_switches newDeviceManager)
                  newConnectionManager)) !! 2 = Some nd /\
    scene (fst (createSampleTopology (devices_by category)
                  (@fold_left _ _ (@Demo.loadDevice offline_host)
                     two_firewalls_three_switches newDeviceManager)
                  newConnectionManager)) !! 4 = Some nd' /\
    ~ same_point (node_position nd) (node_position nd').
Proof.
  exact (createSampleTopology_no_collision category
           (@fold_left _ _ (@Demo.loadDevice offline_host)
              two_firewalls_three_switches newDeviceManager)
           newConnectionManager "firewall" "switch" (0, 0)%Q (5, 0)%Q 1 0
           (mkDevice 2 (plain "fw2" "firewall") true)
           (mkDevice 4 (plain "sw1" "switch") true)
           (@fold_loadDevice_wf offline_host _ _ new_manager_wf)
           ltac:(left; reflexivity) eq_refl ltac:(lia)
           ltac:(right; left; reflexivity) eq_refl ltac:(lia)
           ltac:(discriminate)).
Defined.

(** ** Loading while a filter is active *)

Lemma new_nodes_enabled (sc : list Node) (nm vname : string) (p : Vector3) (h : Q) :
  let sc' := (sc ++ [mkNode (Visual nm) vname None (JBool true) p;
                     label_node (length sc) nm h])%list in
  own_enabled sc' (length sc) = true /\ isEnabled sc' (S (length sc)) = true.
Proof.
  intros sc'.
  assert (Hm : sc' !! length sc = Some (mkNode (Visual nm) vname None (JBool true) p))
    by (unfold sc'; now rewrite list_lookup_middle).
  assert (Hl : sc' !! S (length sc) = Some (label_node (length sc) nm h)).
  { unfold sc'. rewrite lookup_app_r by lia.
    now replace (S (length sc) - length sc) with 1 by lia. }
  split.
  - unfold own_enabled. now rewrite Hm.
  - now rewrite (isEnabled_label sc' _ _ _ _ Hl eq_refl Hm eq_refl).
Qed.

(** X19. Loading does not look at the filter in force: a device whose visual
    builds is registered as visible, with its mesh and its label enabled,
    also when the last [filterByCategories] excluded its type.  It stays so
    until the filter is applied again. *)
Theorem createDevice_ignores_filter `{Babylon} (c : list string) (s : DeviceManager)
    (d : DeviceInfo) :
  buildVisual (select_model (filterByCategories c s) d) d = true ->
  exists dev l,
    map_get (name d) (devices (createDevice (filterByCategories c s) d)) = Some dev /\
    map_get (name d) (labels (createDevice (filterByCategories c s) d)) = Some l /\
    visible dev = true /\
    own_enabled (scene (createDevice (filterByCategories c s) d)) (mesh dev) = true /\
    isEnabled (scene (createDevice (filterByCategories c s) d)) l = true.
Proof.
  intros Hb. rewrite (createDevice_built _ d Hb). cbn [devices labels scene].
  eexists. eexists. rewrite !map_get_set_eq.
  split; [reflexivity|]. split; [reflexivity|]. split; [reflexivity|].
  cbn [mesh]. apply new_nodes_enabled.
Qed.

(** With only firewalls shown, a switch is loaded: it is visible. *)
Lemma createDevice_ignores_filter_witness :
  exists dev,
    map_get "sw4"
      (devices (@createDevice offline_host
                  (filterByCategories ["firewall"]
                     (@loadDevices offline_host two_firewalls_three_switches
                        newDeviceManager))
                  (plain "sw4" "switch"))) = Some dev /\
    visible dev = true.
Proof.
  destruct (@createDevice_ignores_filter offline_host ["firewall"]
              (@loadDevices offline_host two_firewalls_three_switches newDeviceManager)
              (plain "sw4" "switch") eq_refl) as (dev & l & Hdev & _ & Hvis & _).
  exists dev. split; [exact Hdev | exact Hvis].
Defined.

(** ** Reloading a name without position *)

Lemma map_set_present_length {V} (k : string) (v : V) (m : list (string * V)) :
  In k (keys m) -> length (map_set k v m) = length m.
Proof.
  intros Hin. pose proof (keys_map_set k v m) as Hk.
  rewrite (proj2 (existsb_eqb_In _ _) Hin) in Hk.
  unfold keys in Hk. apply (f_equal (@length string)) in Hk.
  now rewrite !length_map in Hk.
Qed.

(** X20. The auto-layout index is the size of the registry when the device
    is created, the device itself not counted.  So when a registered name is
    loaded again without position and a new name follows, both get the same
    index: the two devices are put on the same point. *)
Theorem reload_collides_with_next `{Babylon} (s : DeviceManager) (d b : DeviceInfo) :
  position d = None -> position b = None ->
  In (name d) (keys (devices s)) -> name b <> name d ->
  buildVisual (select_model s d) d = true ->
  buildVisual (select_model (createDevice s d) b) b = true ->
  device_position (createDevice (createDevice s d) b) (name d)
    = Some (autoPositionDevice (Z.of_nat (getDeviceCount s))) /\
  device_position (createDevice (createDevice s d) b) (name b)
    = Some (autoPositionDevice (Z.of_nat (getDeviceCount s))).
Proof.
  intros Hpd Hpb Hin Hne Hbd Hbb.
  assert (Hlen : length (devices (createDevice s d)) = length (devices s)).
  { rewrite (createDevice_built s d Hbd). cbn [devices].
    now apply map_set_present_length. }
  split.
  - rewrite (createDevice_built _ b Hbb). unfold device_position, resolve.
    cbn [devices scene]. rewrite map_get_set_ne by congruence.
    rewrite (createDevice_built s d Hbd). cbn [devices scene].
    rewrite map_get_set_eq. cbn [mesh].
    rewrite lookup_app_l by (rewrite length_app; cbn; lia).
    rewrite list_lookup_middle by reflexivity. cbn.
    unfold resolve_position. now rewrite Hpd.
  - rewrite (createDevice_position _ b Hbb).
    unfold resolve_position. now rewrite Hpb, Hlen.
Qed.

(** "a" is loaded, loaded again, then "b": the second mesh of "a" and the
    mesh of "b" are both at index 1. *)
Lemma reload_collides_with_next_witness :
  device_position
    (@createDevice offline_host
       (@createDevice offline_host
          (@createDevice offline_host newDeviceManager (plain "a" "switch"))
          (plain "a" "switch"))
       (plain "b" "switch")) "a"
  = device_position
      (@createDevice offline_host
         (@createDevice offline_host
            (@createDevice offline_host newDeviceManager (plain "a" "switch"))
            (plain "a" "switch"))
         (plain "b" "switch")) "b".
Proof.
  destruct (@reload_collides_with_next offline_host
              (@createDevice offline_host newDeviceManager (plain "a" "switch"))
              (plain "a" "switch") (plain "b" "switch")
              eq_refl eq_refl ltac:(left; reflexivity) ltac:(discriminate) eq_refl eq_refl)
    as [Ha Hb].
  etransitivity; [exact Ha | symmetry; exact Hb].
Defined.
